(** * BrieflyAI text summarizer: a shallow embedding and its properties

    The development follows the four Python sources of the repository:

    - [summarizer.py]      : [TextSummarizer] and [compute_length_reduction];
    - [summarize_cli.py]   : the command-line script (sequential flag scans
                             over [sys.argv], input resolution, output);
    - [app_gradio.py]      : [build_model_name] and [summarize_interface];
    - [evaluate_rouge.py]  : [SAMPLE_DATA], [build_model_name], the sample
                             loop of [main], and the module body that leads
                             to it.

    Python values are modelled as follows.  A [str] is the list of its code
    points; an [int] is a [Z]; a raised exception is the [Raise] case of
    [result].  A [float] is a rational ([Q]): in [Summarizer] the exact one
    that the expression denotes, in [Binary64] the binary64 number the
    interpreter computes, each operation rounded to nearest, ties to even.
    Everything that lives outside the repository (the file system, the
    model-loading and inference pipeline, the formatting of floats) is a
    field of the record [host].  Effects are threaded through a small monad
    whose state is the log of the events performed so far. *)

From Stdlib Require Import String Ascii DecimalString.
From Stdlib Require Import ZArith NArith QArith Qabs Bool Lia Lqa.
From Stdlib Require Import List Permutation.
Import ListNotations.

Set Implicit Arguments.

(* ===================================================================== *)
(** * Python strings, exceptions and the builtins the sources use          *)
(* ===================================================================== *)

Module Py.

Definition char := N.
Definition str := list char.

(** [py "abc"] is the Python literal ["abc"] (ASCII literals only). *)
Definition py (s : string) : str := map N_of_ascii (list_ascii_of_string s).

Fixpoint eqb (a b : str) : bool :=
  match a, b with
  | [], [] => true
  | x :: a', y :: b' => N.eqb x y && eqb a' b'
  | _, _ => false
  end.

(** [x in l] for a list of strings. *)
Fixpoint contains (x : str) (l : list str) : bool :=
  match l with
  | [] => false
  | y :: l' => eqb y x || contains x l'
  end.

(** [l.index(x)]: position of the first element equal to [x]; [None] stands
    for the [ValueError] Python raises when there is none. *)
Fixpoint index (x : str) (l : list str) : option nat :=
  match l with
  | [] => None
  | y :: l' => if eqb y x then Some O
               else match index x l' with
                    | Some i => Some (S i)
                    | None => None
                    end
  end.

(** [del l[i:j]] for [0 <= i <= j]. *)
Definition del_slice (A : Type) (i j : nat) (l : list A) : list A :=
  firstn i l ++ skipn j l.

(** [l[:k]] for an arbitrary integer [k] (a negative [k] counts from the
    end, and both ends are clipped to the list). *)
Definition slice_to (A : Type) (k : Z) (l : list A) : list A :=
  let n := Z.of_nat (length l) in
  let stop := if (k <? 0)%Z then Z.max 0 (n + k) else Z.min k n in
  firstn (Z.to_nat stop) l.

(** The characters [str.split()] and [str.strip()] treat as whitespace. *)
Definition isspace (c : char) : bool :=
  ((9 <=? c) && (c <=? 13) || (28 <=? c) && (c <=? 32)
   || (c =? 133) || (c =? 160) || (c =? 5760)
   || (8192 <=? c) && (c <=? 8202)
   || (c =? 8232) || (c =? 8233) || (c =? 8239) || (c =? 8287)
   || (c =? 12288))%N.

Fixpoint lstrip (s : str) : str :=
  match s with
  | [] => []
  | c :: s' => if isspace c then lstrip s' else s
  end.

Definition rstrip (s : str) : str := rev (lstrip (rev s)).

Definition strip (s : str) : str := rstrip (lstrip s).

(** [s.split()]: the maximal runs of non-whitespace characters.  [word] is
    the run being read. *)
Fixpoint split_from (word : str) (s : str) : list str :=
  match s with
  | [] => match word with [] => [] | _ => [word] end
  | c :: s' =>
      if isspace c
      then match word with
           | [] => split_from [] s'
           | _ => word :: split_from [] s'
           end
      else split_from (word ++ [c]) s'
  end.

Definition split (s : str) : list str := split_from [] s.

(** [sep.join(l)]. *)
Fixpoint join (sep : str) (l : list str) : str :=
  match l with
  | [] => []
  | [x] => x
  | x :: l' => x ++ sep ++ join sep l'
  end.

(** [s.lower()].  Only the ASCII letters are case-mapped here; the sources
    compare the result with ASCII literals that contain no [k], the one
    ASCII letter some non-ASCII character lower-cases to, so the comparisons
    come out as in Python.  Where the result is printed, a letter outside
    ASCII appears as it was given. *)
Definition lower_char (c : char) : char :=
  if ((65 <=? c) && (c <=? 90))%N then (c + 32)%N else c.

Definition lower (s : str) : str := map lower_char s.

(** [s.endswith(suffix)]. *)
Definition endswith (s suffix : str) : bool :=
  (length suffix <=? length s)%nat
  && eqb (skipn (length s - length suffix) s) suffix.

(** The exceptions that occur.  [SystemExit] and [KeyboardInterrupt] derive
    from [BaseException] only; the others derive from [Exception]. *)
Inductive exn :=
| ValueError (msg : str)
| IndexError
| ZeroDivisionError
| OverflowError (msg : str)
| NameError (msg : str)
| OSError (msg : str)
| RuntimeError (msg : str)
| KeyboardInterrupt
| SystemExit (code : Z).

Definition is_Exception (e : exn) : bool :=
  match e with
  | SystemExit _ | KeyboardInterrupt => false
  | _ => true
  end.

(** [str(e)]. *)
Definition str_exn (e : exn) : str :=
  match e with
  | ValueError m | OverflowError m | NameError m | OSError m
  | RuntimeError m => m
  | IndexError => py "list index out of range"
  | ZeroDivisionError => py "division by zero"
  | KeyboardInterrupt => []
  | SystemExit c => py (NilZero.string_of_int (Z.to_int c))
  end.

Inductive result (A : Type) :=
| Ok (a : A)
| Raise (e : exn).
Arguments Raise {A} e.

(** [l[i]] for a non-negative [i]. *)
Definition getitem (A : Type) (l : list A) (i : nat) : result A :=
  match nth_error l i with
  | Some x => Ok x
  | None => Raise IndexError
  end.

(** [str(n)] for an integer. *)
Definition str_of_int (n : Z) : str := py (NilZero.string_of_int (Z.to_int n)).

(** [a / b] on integers, read as the exact quotient.  The interpreter
    rounds it to binary64; that reading is [Binary64.truediv] below. *)
Definition truediv (a b : Z) : result Q :=
  if (b =? 0)%Z then Raise ZeroDivisionError
  else Ok (inject_Z a / inject_Z b)%Q.

(** [int(s)] in base ten, as CPython 3.11 computes it with its default
    settings.  Around the number it skips the ASCII whitespace of C
    (U+0009 to U+000D and the space; not U+001C to U+001F) and the
    whitespace characters outside ASCII; one sign may come first; the digits
    are the decimal digits of any script, in which single underscores may
    separate digits; a number of more than 4300 digits is refused.  The
    message of the [ValueError] is abridged (the interpreter appends the
    offending literal); the sources catch the exception and never show
    it. *)
Definition int_space (c : char) : bool :=
  ((9 <=? c) && (c <=? 13) || (c =? 32) || (127 <=? c) && isspace c)%N.

Fixpoint skip_int_space (s : str) : str :=
  match s with
  | [] => []
  | c :: s' => if int_space c then skip_int_space s' else s
  end.

(** The digit zero of every script with decimal digits (Unicode 14.0); the
    other nine digits follow it. *)
Definition decimal_zeros : list N :=
  [48; 1632; 1776; 1984; 2406; 2534; 2662; 2790; 2918; 3046; 3174; 3302;
   3430; 3558; 3664; 3792; 3872; 4160; 4240; 6112; 6160; 6470; 6608; 6784;
   6800; 6992; 7088; 7232; 7248; 42528; 43216; 43264; 43472; 43504; 43600;
   44016; 65296; 66720; 68912; 69734; 69872; 69942; 70096; 70384; 70736;
   70864; 71248; 71360; 71472; 71904; 72016; 72784; 73040; 73120; 92768;
   92864; 93008; 120782; 120792; 120802; 120812; 120822; 123200; 123632;
   125264; 130032]%N.

Definition digit_val (c : char) : option Z :=
  match find (fun zero => (zero <=? c) && (c <? zero + 10))%N
             decimal_zeros with
  | Some zero => Some (Z.of_N (c - zero))
  | None => None
  end.

(** The value and the number of digits of a run of digits and underscores
    that starts and ends with a digit and has no two underscores in a
    row. *)
Fixpoint digits_from (acc : Z) (count : Z) (after_digit : bool) (s : str)
  : option (Z * Z) :=
  match s with
  | [] => if after_digit then Some (acc, count) else None
  | c :: s' =>
      if (c =? 95)%N
      then (if after_digit then digits_from acc count false s' else None)
      else match digit_val c with
           | Some d => digits_from (10 * acc + d)%Z (count + 1)%Z true s'
           | None => None
           end
  end.

(** [sys.get_int_max_str_digits()] *)
Definition int_max_str_digits : Z := 4300.

Definition int (s : str) : result Z :=
  let t := rev (skip_int_space (rev (skip_int_space s))) in
  let '(neg, body) :=
    match t with
    | 43%N :: r => (false, r)
    | 45%N :: r => (true, r)
    | _ => (false, t)
    end in
  match digits_from 0 0 false body with
  | Some (n, count) =>
      if (int_max_str_digits <? count)%Z
      then Raise (ValueError
                    (py "Exceeds the limit (4300 digits) for integer string conversion"))
      else Ok (if neg then (- n)%Z else n)
  | None =>
      Raise (ValueError (py "invalid literal for int() with base 10"))
  end.

End Py.

Import Py.

(* ===================================================================== *)
(** * Effects: the event log, the host and the monad                       *)
(* ===================================================================== *)

(** What the summarization pipeline receives on one call. *)
Record request := {
  req_text : str;
  req_max_length : Z;
  req_min_length : Z;
  req_do_sample : bool;
  req_truncation : bool
}.

Inductive event :=
| EvPrint (line : str)              (* print(line) *)
| EvLoad (model : str)              (* pipeline("summarization", model=...) *)
| EvRougeLoad                       (* evaluate.load("rouge") *)
| EvInfer (model : str) (r : request) (* a call of the loaded pipeline *)
| EvRead (path : str)               (* open(path, "r").read() *)
| EvWrite (path content : str).     (* open(path, "w").write(content) *)

Definition trace := list event.

(** The world outside the repository.  Every service may answer according
    to all that has happened so far, which covers sampling pipelines and
    files that change. *)
Record host := {
  h_isfile : trace -> str -> bool;
  h_read : trace -> str -> result str;
  h_write : trace -> str -> str -> result unit;
  h_load : trace -> str -> result unit;
  h_rouge_load : trace -> result unit;
  (** the [summary_text] of each dictionary the pipeline returns *)
  h_infer : trace -> str -> request -> result (list str);
  (** [f"{x:.1f}"] *)
  h_format_1f : Q -> str
}.

Definition io (A : Type) := trace -> trace * result A.

Definition ret (A : Type) (a : A) : io A := fun tr => (tr, Ok a).

Definition bind (A B : Type) (m : io A) (k : A -> io B) : io B :=
  fun tr =>
    match m tr with
    | (tr', Ok a) => k a tr'
    | (tr', Raise e) => (tr', Raise e)
    end.

Definition raise (A : Type) (e : exn) : io A := fun tr => (tr, Raise e).
Arguments raise {A} e.

Definition lift (A : Type) (r : result A) : io A := fun tr => (tr, r).

(** [try: body  except <handled>: handler]. *)
Definition try_except (A : Type) (body : io A) (handled : exn -> bool)
    (handler : exn -> io A) : io A :=
  fun tr =>
    match body tr with
    | (tr', Raise e) => if handled e then handler e tr' else (tr', Raise e)
    | done => done
    end.

(** An effect of the host: the event is logged, and the host answers from
    the log as it stood before. *)
Definition perform (A : Type) (ev : event) (answer : trace -> result A)
  : io A :=
  fun tr => (tr ++ [ev], answer tr).

Definition print (line : str) : io unit :=
  perform (EvPrint line) (fun _ => Ok tt).

Definition sys_exit (A : Type) (code : Z) : io A := raise (SystemExit code).
Arguments sys_exit {A} code.

Declare Scope io_scope.
Delimit Scope io_scope with io.
Notation "x <- m ;; k" := (bind m (fun x => k))
  (at level 61, m at next level, right associativity) : io_scope.
Notation "m ;;; k" := (bind m (fun _ => k))
  (at level 61, right associativity) : io_scope.
Local Open Scope io_scope.

(** The status a finished run leaves to the operating system: 0 at the end
    of the script, the code of [sys.exit], 1 for an uncaught exception. *)
Definition exit_status (A : Type) (r : result A) : Z :=
  match r with
  | Ok _ => 0
  | Raise (SystemExit c) => c
  | Raise _ => 1
  end.

(** The pipeline calls recorded in a log. *)
Fixpoint inferences (tr : trace) : list request :=
  match tr with
  | [] => []
  | EvInfer _ r :: tr' => r :: inferences tr'
  | _ :: tr' => inferences tr'
  end.

(* ===================================================================== *)
(** * summarizer.py                                                        *)
(* ===================================================================== *)

Module Summarizer.

Record TextSummarizer := {
  model_name : str;
  max_length : Z;
  min_length : Z;
  do_sample : bool;
  _pipeline : str   (* the pipeline object, known by the model it loaded *)
}.

(** [TextSummarizer.__init__] *)
Definition init (h : host) (model_name : str) (max_length min_length : Z)
    (do_sample : bool) : io TextSummarizer :=
  perform (EvLoad model_name) (fun tr => h_load h tr model_name) ;;;
  ret {| model_name := model_name;
         max_length := max_length;
         min_length := min_length;
         do_sample := do_sample;
         _pipeline := model_name |}.

Definition EmptyInput : exn := ValueError (py "Input text is empty.").

(** [TextSummarizer.summarize] *)
Definition summarize (h : host) (self : TextSummarizer) (text : str)
  : io str :=
  if match text with [] => true | _ => false end
     || match strip text with [] => true | _ => false end
  then raise EmptyInput
  else
    let r := {| req_text := text;
                req_max_length := max_length self;
                req_min_length := min_length self;
                req_do_sample := do_sample self;
                req_truncation := true |} in
    result <- perform (EvInfer (_pipeline self) r)
                      (fun tr => h_infer h tr (_pipeline self) r) ;;
    lift (getitem result 0).

(** [compute_length_reduction] *)
Definition compute_length_reduction (original summary : str)
  : result (Z * Z * Q) :=
  let orig_len := Z.of_nat (length (split original)) in
  let sum_len :=
    match summary with
    | [] => 0%Z
    | _ => Z.of_nat (length (split summary))
    end in
  if (orig_len =? 0)%Z then Ok (0%Z, sum_len, 0%Q)
  else
    match truediv sum_len orig_len with
    | Ok q => Ok (orig_len, sum_len, (1 - q)%Q)
    | Raise e => Raise e
    end.

End Summarizer.

(* ===================================================================== *)
(** * summarize_cli.py                                                     *)
(* ===================================================================== *)

Module Cli.

(** The module-level variables of the script, [sys.argv] among them. *)
Record globals := {
  argv : list str;
  model_name : str;
  max_length : Z;
  min_length : Z;
  output_file : option str
}.

Definition initial (args : list str) : globals :=
  {| argv := args;
     model_name := py "facebook/bart-large-cnn";
     max_length := 60;
     min_length := 20;
     output_file := None |}.

Definition set_argv (a : list str) (g : globals) : globals :=
  {| argv := a; model_name := model_name g; max_length := max_length g;
     min_length := min_length g; output_file := output_file g |}.

Definition set_model_name (m : str) (g : globals) : globals :=
  {| argv := argv g; model_name := m; max_length := max_length g;
     min_length := min_length g; output_file := output_file g |}.

Definition set_max_length (n : Z) (g : globals) : globals :=
  {| argv := argv g; model_name := model_name g; max_length := n;
     min_length := min_length g; output_file := output_file g |}.

Definition set_min_length (n : Z) (g : globals) : globals :=
  {| argv := argv g; model_name := model_name g; max_length := max_length g;
     min_length := n; output_file := output_file g |}.

Definition set_output_file (f : str) (g : globals) : globals :=
  {| argv := argv g; model_name := model_name g; max_length := max_length g;
     min_length := min_length g; output_file := Some f |}.

(** [sys.argv.index(flag)], with its [ValueError]. *)
Definition list_index (x : str) (l : list str) : result nat :=
  match index x l with
  | Some i => Ok i
  | None => Raise (ValueError (py "value is not in list"))
  end.

(** [except (IndexError, ValueError)] *)
Definition index_or_value_error (e : exn) : bool :=
  match e with
  | IndexError | ValueError _ => true
  | _ => false
  end.

(** Lines 12-32: the [--model] scan. *)
Definition scan_model (g : globals) : io globals :=
  if contains (py "--model") (argv g) then
    try_except
      (model_index <- lift (list_index (py "--model") (argv g)) ;;
       token <- lift (getitem (argv g) (model_index + 1)) ;;
       let selected_model := lower token in
       g1 <- (if eqb selected_model (py "bart")
              then ret (set_model_name (py "facebook/bart-large-cnn") g)
              else if eqb selected_model (py "distilbart")
              then ret (set_model_name (py "sshleifer/distilbart-cnn-12-6") g)
              else if eqb selected_model (py "t5")
              then ret (set_model_name (py "t5-small") g)
              else print (py "Unknown model: " ++ selected_model) ;;;
                   sys_exit 1) ;;
       ret (set_argv (del_slice model_index (model_index + 2) (argv g1)) g1))
      index_or_value_error
      (fun _ => print (py "Usage: --model <bart|distilbart|t5>") ;;;
                sys_exit 1)
  else ret g.

(** Lines 35-45: the [--max] scan. *)
Definition scan_max (g : globals) : io globals :=
  if contains (py "--max") (argv g) then
    try_except
      (max_index <- lift (list_index (py "--max") (argv g)) ;;
       token <- lift (getitem (argv g) (max_index + 1)) ;;
       n <- lift (int token) ;;
       let g1 := set_max_length n g in
       ret (set_argv (del_slice max_index (max_index + 2) (argv g1)) g1))
      index_or_value_error
      (fun _ => print (py "Usage: --max <integer>") ;;; sys_exit 1)
  else ret g.

(** Lines 48-58: the [--min] scan. *)
Definition scan_min (g : globals) : io globals :=
  if contains (py "--min") (argv g) then
    try_except
      (min_index <- lift (list_index (py "--min") (argv g)) ;;
       token <- lift (getitem (argv g) (min_index + 1)) ;;
       n <- lift (int token) ;;
       let g1 := set_min_length n g in
       ret (set_argv (del_slice min_index (min_index + 2) (argv g1)) g1))
      index_or_value_error
      (fun _ => print (py "Usage: --min <integer>") ;;; sys_exit 1)
  else ret g.

(** Lines 61-71: the [--out] scan. *)
Definition scan_out (g : globals) : io globals :=
  if contains (py "--out") (argv g) then
    try_except
      (out_index <- lift (list_index (py "--out") (argv g)) ;;
       token <- lift (getitem (argv g) (out_index + 1)) ;;
       let g1 := set_output_file token g in
       ret (set_argv (del_slice out_index (out_index + 2) (argv g1)) g1))
      index_or_value_error
      (fun _ => print (py "Output file name missing" ++ [10%N]
                       ++ py "Usage: --out <output_filename>") ;;;
                sys_exit 1)
  else ret g.

(** Lines 75-79: some argument must be left after the script name. *)
Definition check_positional (g : globals) : io globals :=
  if (length (argv g) <? 2)%nat then
    print (py "Usage: ") ;;;
    print (py "python summarize_cli.py " ++ [34%N]
           ++ py "your long text here" ++ [34%N]) ;;;
    print (py "python summarize_cli.py path/to/file.txt") ;;;
    sys_exit 1
  else ret g.

(** Lines 12-79: the argument-processing phase. *)
Definition parse_arguments (args : list str) : io globals :=
  g1 <- scan_model (initial args) ;;
  g2 <- scan_max g1 ;;
  g3 <- scan_min g2 ;;
  g4 <- scan_out g3 ;;
  check_positional g4.

(** Lines 81-93: the input text. *)
Definition resolve_input (h : host) (g : globals) : io str :=
  let arg_text := join [] (skipn 1 (argv g)) in
  fun tr =>
    match argv g with
    | [_; a1] =>
        if endswith (lower a1) (py ".txt") && h_isfile h tr a1
        then (print (py "Reading text from file: " ++ a1) ;;;
              perform (EvRead a1) (fun tr' => h_read h tr' a1)) tr
        else ret arg_text tr
    | _ => ret arg_text tr
    end.

(** Lines 116-123: the [--out] file. *)
Definition write_output (h : host) (g : globals) (summary : str) : io unit :=
  match output_file g with
  | Some (c :: f) =>
      let output_file := c :: f in
      try_except
        (perform (EvWrite output_file summary)
                 (fun tr => h_write h tr output_file summary) ;;;
         print ([10%N] ++ py "Summary saved to: " ++ output_file))
        is_Exception
        (fun e => print (py "Error writing to file: " ++ str_exn e))
  | _ => ret tt
  end.

(** Lines 96-126: summarize, report, write, show. *)
Definition summarize_and_report (h : host) (g : globals) (input_text : str)
  : io unit :=
  ts <- Summarizer.init h (model_name g) (max_length g) (min_length g) false ;;
  summary <- Summarizer.summarize h ts input_text ;;
  stats <- lift (Summarizer.compute_length_reduction input_text summary) ;;
  let '(orig_len, sum_len, reduction) := stats in
  print (py "=== STATS ===") ;;;
  print (py "Original length: " ++ str_of_int orig_len ++ py " words") ;;;
  print (py "Summary length:  " ++ str_of_int sum_len ++ py " words") ;;;
  print (py "Reduction:       " ++ h_format_1f h (reduction * 100)%Q
         ++ py "%") ;;;
  write_output h g summary ;;;
  print ([10%N] ++ py "=== SUMMARY ===") ;;;
  print summary.

(** The whole script, run on [sys.argv = args]. *)
Definition script (h : host) (args : list str) : io unit :=
  g <- parse_arguments args ;;
  input_text <- resolve_input h g ;;
  summarize_and_report h g input_text.

End Cli.

(* ===================================================================== *)
(** * app_gradio.py                                                        *)
(* ===================================================================== *)

Module Gradio.

(** [build_model_name] *)
Definition build_model_name (choice : str) : str :=
  let choice := lower choice in
  if eqb choice (py "bart") then py "facebook/bart-large-cnn"
  else if eqb choice (py "distilbart") then py "sshleifer/distilbart-cnn-12-6"
  else if eqb choice (py "t5") then py "t5-small"
  else py "facebook/bart-large-cnn".

(** [gr.update(visible=...)] *)
Inductive update := Update (visible : bool).

(** Lines 47-56: the text to summarize, or the triple the callback returns
    at once when the file cannot be read. *)
Definition resolve_text (h : host) (text file_path : option str)
  : io (str * str * update + str) :=
  match file_path with
  | Some (c :: p) =>
      let file_path := c :: p in
      try_except
        (text_content <- perform (EvRead file_path)
                                 (fun tr => h_read h tr file_path) ;;
         ret (inr text_content))
        is_Exception
        (fun e => ret (inl (py "Error reading file: " ++ str_exn e,
                            [], Update false)))
  | _ =>
      ret (inr match text with
               | Some (c :: t) => c :: t
               | _ => []
               end)
  end.

(** [summarize_interface]; the sliders deliver integers. *)
Definition summarize_interface (h : host) (text file_path : option str)
    (model_choice : str) (max_len min_len : Z) (creative_mode : bool)
  : io (str * str * update) :=
  source <- resolve_text h text file_path ;;
  match source with
  | inl early => ret early
  | inr text_content =>
      match strip text_content with
      | [] => ret (py "Please enter some text or upload a .txt file.",
                   [], Update false)
      | _ =>
          let model_name := build_model_name model_choice in
          ts <- Summarizer.init h model_name max_len min_len creative_mode ;;
          summary <- Summarizer.summarize h ts text_content ;;
          stats <- lift (Summarizer.compute_length_reduction
                           text_content summary) ;;
          let '(orig_len, sum_len, reduction) := stats in
          let stats :=
            py "Original length: " ++ str_of_int orig_len ++ py " words"
            ++ [10%N]
            ++ py "Summary length:  " ++ str_of_int sum_len ++ py " words"
            ++ [10%N]
            ++ py "Reduction:       " ++ h_format_1f h (reduction * 100)%Q
            ++ py "%" in
          ret (summary, stats, Update true)
      end
  end.

End Gradio.

(* ===================================================================== *)
(** * evaluate_rouge.py                                                    *)
(* ===================================================================== *)

Module EvaluateRouge.

Record sample := {
  id : str;
  text : str;
  reference : str
}.

Definition SAMPLE_DATA : list sample :=
  [ {| id := py "sample_1";
       text :=
         py "The company announced a new product update on Monday, introducing features aimed at improving "
         ++ py "performance and reliability. Executives said the update was shaped by customer feedback and "
         ++ py "would roll out gradually over the coming weeks. Analysts expect the changes to strengthen "
         ++ py "the product" ++ [8217%N]
         ++ py "s competitiveness, though they cautioned that adoption may vary across regions.";
       reference :=
         py "The company released a product update with new performance and reliability features, rolling "
         ++ py "out over the next few weeks after customer feedback." |};
    {| id := py "sample_2";
       text :=
         py "A research team published findings showing that improved data cleaning and feature engineering "
         ++ py "significantly boosted model stability. The authors evaluated multiple configurations and noted "
         ++ py "that even small preprocessing changes could affect accuracy. They recommended standardized "
         ++ py "evaluation protocols to improve reproducibility across future experiments.";
       reference :=
         py "Researchers found that better preprocessing improves model stability and recommended standardized "
         ++ py "evaluation protocols for reproducibility." |};
    {| id := py "sample_3";
       text :=
         py "During the meeting, stakeholders aligned on priorities for the next quarter. The team will focus "
         ++ py "on reducing latency, improving monitoring, and refining the user onboarding flow. A follow-up "
         ++ py "session is scheduled to finalize milestones and confirm ownership across engineering and product.";
       reference :=
         py "Stakeholders agreed next-quarter priorities: reduce latency, improve monitoring, and refine onboarding, "
         ++ py "with a follow-up to finalize milestones and ownership." |} ].

(** The namespace [parse_args] returns. *)
Record args := {
  model : str;
  max : Z;
  min : Z;
  do_sample : bool;
  limit : Z
}.

(** [build_model_name] *)
Definition build_model_name (choice : str) : str :=
  let choice := lower choice in
  if eqb choice (py "bart") then py "facebook/bart-large-cnn" else
  if eqb choice (py "distilbart") then py "sshleifer/distilbart-cnn-12-6" else
  if eqb choice (py "t5") then py "t5-small" else
  py "facebook/bart-large-cnn".

(** Line 88:
    [SAMPLE_DATA[: max(1, min(args.limit, len(SAMPLE_DATA)))]] *)
Definition samples (a : args) : list sample :=
  slice_to (Z.max 1 (Z.min (limit a) (Z.of_nat (length SAMPLE_DATA))))
           SAMPLE_DATA.

Definition str_of_bool (b : bool) : str :=
  if b then py "True" else py "False".

(** Lines 95-103: the loop; it returns [predictions] and [references]. *)
Fixpoint evaluate_samples (h : host) (ts : Summarizer.TextSummarizer)
    (l : list sample) (predictions references : list str)
  : io (list str * list str) :=
  match l with
  | [] => ret (predictions, references)
  | s :: l' =>
      pred <- Summarizer.summarize h ts (text s) ;;
      let predictions := predictions ++ [pred] in
      let references := references ++ [reference s] in
      print (py "--- " ++ id s ++ py " ---") ;;;
      print (py "PRED: " ++ pred) ;;;
      print (py "REF:  " ++ reference s) ;;;
      print [] ;;;
      evaluate_samples h ts l' predictions references
  end.

(** [main] up to the end of the loop (lines 76-103); the scoring of the
    two lists that follows is left to the ROUGE library. *)
Definition main (h : host) (a : args) : io (list str * list str) :=
  let model_name := build_model_name (model a) in
  ts <- Summarizer.init h model_name (max a) (min a) (do_sample a) ;;
  perform EvRougeLoad (fun tr => h_rouge_load h tr) ;;;
  let samples := samples a in
  print ([10%N] ++ py "Evaluating ROUGE for model=" ++ model a
         ++ py " (" ++ model_name ++ py ") max=" ++ str_of_int (max a)
         ++ py " min=" ++ str_of_int (min a)
         ++ py " do_sample=" ++ str_of_bool (do_sample a) ++ [10%N]) ;;;
  evaluate_samples h ts samples [] [].

End EvaluateRouge.

(* ===================================================================== *)
(** * Concrete hosts, used to run the model on examples                    *)
(* ===================================================================== *)

Module Demo.

(** A formatter for the examples: the nearest tenth of the exact rational,
    ties to even.  The interpreter formats the binary64 number instead, and
    its digits can differ in the last place; no statement depends on the
    digits this one prints. *)
Definition format_1f (x : Q) : str :=
  let t := (10 * Qnum x)%Z in
  let d := Zpos (Qden x) in
  let q := (Z.abs t / d)%Z in
  let r := (Z.abs t mod d)%Z in
  let n := if (2 * r <? d)%Z then q
           else if (d <? 2 * r)%Z then (q + 1)%Z
           else if Z.even q then q else (q + 1)%Z in
  (if (t <? 0)%Z then py "-" else [])
  ++ str_of_int (n / 10) ++ py "." ++ str_of_int (n mod 10).

(** A host holding one file, [notes.txt]; nothing can be written; every
    model loads, and the pipeline answers with one fixed summary. *)
Definition notes : str := py "notes kept in a file".

Definition read_only : host :=
  {| h_isfile := fun _ p => eqb p (py "notes.txt");
     h_read := fun _ p =>
       if eqb p (py "notes.txt") then Ok notes
       else Raise (OSError (py "No such file or directory"));
     h_write := fun _ _ _ => Raise (OSError (py "Permission denied"));
     h_load := fun _ _ => Ok tt;
     h_rouge_load := fun _ => Ok tt;
     h_infer := fun _ _ _ => Ok [py "a short summary"];
     h_format_1f := format_1f |}.

Definition prog : str := py "summarize_cli.py".

(** A facade as [TextSummarizer("t5-small")] builds it. *)
Definition facade : Summarizer.TextSummarizer :=
  {| Summarizer.model_name := py "t5-small";
     Summarizer.max_length := 60;
     Summarizer.min_length := 20;
     Summarizer.do_sample := false;
     Summarizer._pipeline := py "t5-small" |}.

(** The batch script started with [--limit 0]. *)
Definition limit_zero : EvaluateRouge.args :=
  {| EvaluateRouge.model := py "bart";
     EvaluateRouge.max := 120;
     EvaluateRouge.min := 40;
     EvaluateRouge.do_sample := false;
     EvaluateRouge.limit := 0 |}.

End Demo.

(* ===================================================================== *)
(** * Notions the statements are phrased with                              *)
(* ===================================================================== *)

(** A host on which the batch run meets no failure. *)
Definition cooperative (h : host) : Prop :=
  (forall tr m, h_load h tr m = Ok tt)
  /\ (forall tr, h_rouge_load h tr = Ok tt)
  /\ (forall tr m r, exists s rest, h_infer h tr m r = Ok (s :: rest)).

(** ** Reading a command line without indices *)

(** What follows the first occurrence of [flag] in [l]: [None] when the
    flag does not occur, [Some None] when it is the last token, and
    [Some (Some v)] when the token [v] follows it. *)
Fixpoint value_of (flag : str) (l : list str) : option (option str) :=
  match l with
  | [] => None
  | x :: l' => if eqb x flag then Some (hd_error l') else value_of flag l'
  end.

(** [l] without the first occurrence of [flag] and the token after it. *)
Fixpoint without (flag : str) (l : list str) : list str :=
  match l with
  | [] => []
  | x :: l' => if eqb x flag then tl l' else x :: without flag l'
  end.

(** The keywords the adapters know. *)
Definition recognized (keyword : str) : bool :=
  eqb keyword (py "bart") || eqb keyword (py "distilbart")
  || eqb keyword (py "t5").

Definition default_model : str := py "facebook/bart-large-cnn".

Definition usage_model : str := py "Usage: --model <bart|distilbart|t5>".
Definition usage_max : str := py "Usage: --max <integer>".
Definition usage_min : str := py "Usage: --min <integer>".
Definition usage_out : str :=
  py "Output file name missing" ++ [10%N]
  ++ py "Usage: --out <output_filename>".

(** The shape the four scans of the script share: look the flag up; stop
    with the usage line when no token follows it; otherwise [decode] the
    token, which either yields the assignment to make or the line to print
    before stopping; finally drop the flag and its token. *)
Definition scan_step (flag usage : str)
    (decode : str -> (Cli.globals -> Cli.globals) + str) (g : Cli.globals)
  : io Cli.globals :=
  fun tr =>
    match value_of flag (Cli.argv g) with
    | None => (tr, Ok g)
    | Some None => (tr ++ [EvPrint usage], Raise (SystemExit 1))
    | Some (Some v) =>
        match decode v with
        | inl store =>
            (tr, Ok (Cli.set_argv (without flag (Cli.argv g)) (store g)))
        | inr message => (tr ++ [EvPrint message], Raise (SystemExit 1))
        end
    end.

Definition decode_model (v : str) : (Cli.globals -> Cli.globals) + str :=
  if recognized (lower v)
  then inl (Cli.set_model_name (Gradio.build_model_name v))
  else inr (py "Unknown model: " ++ lower v).

Definition decode_max (v : str) : (Cli.globals -> Cli.globals) + str :=
  match int v with
  | Ok n => inl (Cli.set_max_length n)
  | Raise _ => inr usage_max
  end.

Definition decode_min (v : str) : (Cli.globals -> Cli.globals) + str :=
  match int v with
  | Ok n => inl (Cli.set_min_length n)
  | Raise _ => inr usage_min
  end.

Definition decode_out (v : str) : (Cli.globals -> Cli.globals) + str :=
  inl (Cli.set_output_file v).

(** ** Why the argument phase of the script stops

    The flags are looked up in the order [--model], [--max], [--min],
    [--out], each in what the earlier ones left. *)

Definition after_model (args : list str) := without (py "--model") args.
Definition after_max (args : list str) :=
  without (py "--max") (after_model args).
Definition after_min (args : list str) :=
  without (py "--min") (after_max args).
Definition after_out (args : list str) :=
  without (py "--out") (after_min args).






(** ** Command lines that list flag/value pairs before the text *)

Definition FLAGS : list str :=
  [py "--model"; py "--max"; py "--min"; py "--out"].

Definition is_flag (s : str) : bool := contains s FLAGS.

(** The tokens of a list of flag/value pairs, in order. *)
Fixpoint flat (pairs : list (str * str)) : list str :=
  match pairs with
  | [] => []
  | (flag, value) :: pairs' => flag :: value :: flat pairs'
  end.

(** The value paired with [flag], if any. *)
Fixpoint assoc (flag : str) (pairs : list (str * str)) : option str :=
  match pairs with
  | [] => None
  | (f, v) :: pairs' => if eqb f flag then Some v else assoc flag pairs'
  end.

(** The pairs of the other flags. *)
Definition drop (flag : str) (pairs : list (str * str))
  : list (str * str) :=
  filter (fun p => negb (eqb (fst p) flag)) pairs.

(** Each flag is one of [todo] and occurs once, and no value is itself the
    name of a flag. *)
Definition well_formed (todo : list str) (pairs : list (str * str)) : Prop :=
  NoDup (map fst pairs)
  /\ Forall (fun p => In (fst p) todo /\ is_flag (snd p) = false) pairs.

(** Two states of the script that differ only in the order in which the
    pairs still to be scanned are listed. *)
Definition laid_out (prog : str) (todo : list str) (g g' : Cli.globals)
  : Prop :=
  exists pairs pairs' rest,
    well_formed todo pairs
    /\ Permutation pairs pairs'
    /\ Cli.argv g = prog :: flat pairs ++ rest
    /\ g' = Cli.set_argv (prog :: flat pairs' ++ rest) g.

(** An assignment that leaves [sys.argv] alone. *)
Definition keeps_argv
    (decode : str -> (Cli.globals -> Cli.globals) + str) : Prop :=
  forall v store, decode v = inl store ->
    forall a g, store (Cli.set_argv a g) = Cli.set_argv a (store g).

Unset Implicit Arguments.

(* ===================================================================== *)
(** * The rest of the sources                                              *)
(* ===================================================================== *)

(** ** Two more string builtins *)

Module PyText.

(** [s.startswith(prefix)]. *)
Fixpoint startswith (s prefix : str) {struct prefix} : bool :=
  match prefix, s with
  | [], _ => true
  | p :: prefix', c :: s' => N.eqb c p && startswith s' prefix'
  | _ :: _, [] => false
  end.

(** [s.replace(old, new)] for a non-empty [old]: the occurrences are taken
    from left to right and do not overlap.  [skip] counts the characters of
    the occurrence just replaced that are still to be passed over. *)
Fixpoint replace_from (old new : str) (skip : nat) (s : str) : str :=
  match s with
  | [] => []
  | c :: s' =>
      match skip with
      | S k => replace_from old new k s'
      | O =>
          if startswith s old
          then new ++ replace_from old new (length old - 1) s'
          else c :: replace_from old new 0 s'
      end
  end.

(** [s.replace(old, new)]; an empty [old] matches before every character
    and at the end. *)
Definition replace (s old new : str) : str :=
  match old with
  | [] => new ++ flat_map (fun c => c :: new) s
  | _ :: _ => replace_from old new 0 s
  end.

End PyText.

(** ** Floats as the interpreter has them *)

Module Binary64.

(** A finite binary64 number is given by the rational it denotes.  The sign
    of a zero is not kept (line 49 of summarizer.py yields no negative
    zero), and neither an infinity nor a NaN arises there: a quotient of
    integers that is too large raises instead. *)

(** The integer nearest to [num / den], for [den > 0]; of two that are
    equally near, the even one. *)
Definition round_half_even (num den : Z) : Z :=
  let q := (num / den)%Z in
  match (2 * (num mod den) ?= den)%Z with
  | Lt => q
  | Gt => (q + 1)%Z
  | Eq => if Z.even q then q else (q + 1)%Z
  end.

(** [floor (log2 (a / b))] for positive [a] and [b]. *)
Definition mag (a b : Z) : Z :=
  if (b <=? a)%Z then Z.log2 (a / b)
  else (- Z.log2_up ((b + a - 1) / a))%Z.

(** The exponent of the last place of the binary64 numbers around [a / b]:
    53 significant bits, and never below that of the subnormal numbers. *)
Definition exponent (a b : Z) : Z := Z.max (mag a b - 52) (-1074).

(** [n * 2 ^ e] *)
Definition value (n e : Z) : Q :=
  if (0 <=? e)%Z then inject_Z (n * 2 ^ e)
  else n # Z.to_pos (2 ^ (- e)).

(** The multiple of [2 ^ exponent] nearest to [a / b], ties to even. *)
Definition round_pos (a b : Z) : Q :=
  let e := exponent a b in
  value (if (0 <=? e)%Z then round_half_even a (b * 2 ^ e)
         else round_half_even (a * 2 ^ (- e)) b)
        e.

(** Rounding to nearest, ties to even, before the test for overflow. *)
Definition round (x : Q) : Q :=
  match Qnum x with
  | Z0 => 0
  | Zpos a => round_pos (Zpos a) (Zpos (Qden x))
  | Zneg a => - round_pos (Zpos a) (Zpos (Qden x))
  end.

(** What rounds to [2 ^ 1024] or beyond has no finite binary64. *)
Definition is_finite (x : Q) : bool :=
  match Qabs x ?= inject_Z (2 ^ 1024) with
  | Lt => true
  | _ => false
  end.

(** Numbers of magnitude [2 ^ -1022] and more keep 53 significant bits. *)
Definition normal (x : Q) : Prop :=
  (Z.pos (Qden x) <= Z.abs (Qnum x) * 2 ^ 1022)%Z.

(** [2 ^ -53]: how far, relative to its size, a normal number can be from
    the binary64 nearest to it. *)
Definition unit_roundoff : Q := 1 # 9007199254740992.

(** [a / b] on integers: the quotient, correctly rounded. *)
Definition truediv (a b : Z) : result Q :=
  if (b =? 0)%Z then Raise ZeroDivisionError
  else
    let q := round (inject_Z a / inject_Z b) in
    if is_finite q then Ok q
    else Raise (OverflowError
                  (py "integer division result too large for a float")).

(** [x - y] on floats (no overflow arises where the sources subtract). *)
Definition sub (x y : Q) : Q := round (x - y).

(** [compute_length_reduction] of summarizer.py, with the arithmetic of
    line 49 done in binary64. *)
Definition compute_length_reduction (original summary : str)
  : result (Z * Z * Q) :=
  let orig_len := Z.of_nat (length (split original)) in
  let sum_len :=
    match summary with
    | [] => 0%Z
    | _ => Z.of_nat (length (split summary))
    end in
  if (orig_len =? 0)%Z then Ok (0%Z, sum_len, 0%Q)
  else
    match truediv sum_len orig_len with
    | Ok q => Ok (orig_len, sum_len, sub 1 q)
    | Raise e => Raise e
    end.

End Binary64.

(** ** app_gradio.py: the download button and the status line *)

Module GradioDownload.

(** What [tempfile] and [os.path] provide: [mkdtemp()], which may fail, and
    [os.path.join] of a directory and a file name. *)
Record temp_services := {
  t_mkdtemp : trace -> result str;
  t_join : str -> str -> str
}.

(** [_write_summary_to_temp_file]; [None] is Python's [None].  The log
    has no event for the creation of a directory: of the two effects only
    the write is recorded. *)
Definition _write_summary_to_temp_file (h : host) (t : temp_services)
    (summary_text : str) : io (option str) :=
  if match summary_text with [] => true | _ => false end
     || match strip summary_text with [] => true | _ => false end
  then ret None
  else
    bind (fun tr => (tr, t_mkdtemp t tr)) (fun temp_dir =>
    let file_path := t_join t temp_dir (py "summary.txt") in
    bind (perform (EvWrite file_path summary_text)
                  (fun tr => h_write h tr file_path summary_text))
         (fun _ => ret (Some file_path))).

(** What [generate_download_file] hands to the button: [gr.update()], which
    changes nothing, or the path of the file to download. *)
Inductive button_value :=
| NoChange
| FilePath (path : str).

(** [generate_download_file] *)
Definition generate_download_file (h : host) (t : temp_services)
    (summary_text : str) : io button_value :=
  bind (_write_summary_to_temp_file h t summary_text) (fun file_path =>
  match file_path with
  | None => ret NoChange
  | Some p => ret (FilePath p)
  end).

(** [set_status] and [clear_status] *)
Definition set_status : str :=
  [9203%N] ++ py " Summarizing" ++ [8230%N].

Definition clear_status : str := [].

End GradioDownload.

(** ** evaluate_rouge.py: the lists handed to the scorer *)

Module EvaluateScoring.

(** Line 107: [[p.replace(". ", ".\n") for p in predictions]] *)
Definition predictions_lsum (predictions : list str) : list str :=
  map (fun p => PyText.replace p (py ". ") (py "." ++ [10%N])) predictions.

(** Line 108: [[r.replace(". ", ".\n") for r in references]] *)
Definition references_lsum (references : list str) : list str :=
  map (fun r => PyText.replace r (py ". ") (py "." ++ [10%N])) references.

End EvaluateScoring.

(** ** evaluate_rouge.py, run as a script *)

Module EvaluateScript.
Import EvaluateRouge.

(** When the interpreter evaluates the annotation of a module-level
    assignment: as the statement runs (every Python before 3.14), or only
    when something asks for it (3.14 and later), which the script never
    does. *)
Inductive annotations := Eager | Deferred.

(** The global names bound when the annotation of line 12 is evaluated:
    what lines 1-2 import, and the target of line 12 itself, which is
    assigned first. *)
Definition globals_at_line_12 : list str :=
  [py "argparse"; py "nltk"; py "evaluate"; py "TextSummarizer";
   py "SAMPLE_DATA"].

(** Of the names the annotation mentions, [str] alone is a builtin. *)
Definition is_builtin (name : str) : bool := eqb name (py "str").

(** Loading a name at module level. *)
Definition load_name (name : str) : io unit :=
  if existsb (eqb name) globals_at_line_12 || is_builtin name then ret tt
  else raise (NameError (py "name '" ++ name ++ py "' is not defined")).

Fixpoint load_names (names : list str) : io unit :=
  match names with
  | [] => ret tt
  | name :: rest => load_name name ;;; load_names rest
  end.

(** The names [List[Dict[str, str]]] loads, in the order it loads them. *)
Definition annotation_of_SAMPLE_DATA : list str :=
  [py "List"; py "Dict"; py "str"; py "str"].

(** The module body.  [prelude] stands for lines 1-9, the imports and the
    lookup of the tokenizer, which are the libraries' business; the [def]
    statements that follow line 12 only bind names; line 127 calls
    [main]. *)
Definition script (v : annotations) (prelude : io unit) (h : host)
    (a : args) : io (list str * list str) :=
  prelude ;;;
  match v with
  | Eager => load_names annotation_of_SAMPLE_DATA
  | Deferred => ret tt
  end ;;;
  main h a.

End EvaluateScript.

(** ** Notions for the further statements *)

(** The settings a list of flag/value pairs asks for. *)
Definition setting_model (pairs : list (str * str)) : str :=
  match assoc (py "--model") pairs with
  | Some v => Gradio.build_model_name v
  | None => default_model
  end.

Definition setting_number (flag : str) (default : Z)
    (pairs : list (str * str)) : Z :=
  match assoc flag pairs with
  | Some v => match int v with Ok n => n | Raise _ => default end
  | None => default
  end.

(** Every value given can be decoded: the model keyword is known and the
    two lengths are integers. *)
Definition decodable (pairs : list (str * str)) : Prop :=
  (forall v, assoc (py "--model") pairs = Some v ->
             recognized (lower v) = true)
  /\ (forall v, assoc (py "--max") pairs = Some v -> exists n, int v = Ok n)
  /\ (forall v, assoc (py "--min") pairs = Some v -> exists n, int v = Ok n).


(** The models loaded in a log. *)
Fixpoint loads (tr : trace) : list str :=
  match tr with
  | [] => []
  | EvLoad m :: tr' => m :: loads tr'
  | _ :: tr' => loads tr'
  end.

(** [sub] occurs in [s] at some position. *)
Fixpoint occurs (sub s : str) : bool :=
  PyText.startswith s sub
  || match s with
     | [] => false
     | _ :: s' => occurs sub s'
     end.

(** Run from the log [tr], [m] only appends to it, and only events that
    [allowed] lets through. *)
Definition confined (A : Type) (allowed : event -> bool) (m : io A)
    (tr : trace) : Prop :=
  exists evs, fst (m tr) = tr ++ evs /\ forallb allowed evs = true.

Definition is_print (ev : event) : bool :=
  match ev with EvPrint _ => true | _ => false end.

Definition is_write (ev : event) : bool :=
  match ev with EvWrite _ _ => true | _ => false end.

(** Reading a file, loading a model or calling the pipeline. *)
Definition is_model_or_read (ev : event) : bool :=
  match ev with
  | EvRead _ | EvLoad _ | EvInfer _ _ => true
  | _ => false
  end.

Definition not_write (ev : event) : bool := negb (is_write ev).

(** A text in which every space that follows a full stop is turned into a
    line feed; [after_period] tells whether the character before was a
    full stop. *)
Fixpoint break_after_period (after_period : bool) (s : str) : str :=
  match s with
  | [] => []
  | c :: s' =>
      (if after_period && (c =? 32)%N then 10%N else c)
      :: break_after_period (c =? 46)%N s'
  end.

(** ** Further hosts for examples *)

Module DemoMore.

(** As [Demo.read_only], but every file can be written. *)
Definition writable : host :=
  {| h_isfile := h_isfile Demo.read_only;
     h_read := h_read Demo.read_only;
     h_write := fun _ _ _ => Ok tt;
     h_load := h_load Demo.read_only;
     h_rouge_load := h_rouge_load Demo.read_only;
     h_infer := h_infer Demo.read_only;
     h_format_1f := h_format_1f Demo.read_only |}.

(** As [Demo.read_only], but no model can be loaded. *)
Definition offline : host :=
  {| h_isfile := h_isfile Demo.read_only;
     h_read := h_read Demo.read_only;
     h_write := h_write Demo.read_only;
     h_load := fun _ _ => Raise (OSError (py "model not available"));
     h_rouge_load := h_rouge_load Demo.read_only;
     h_infer := h_infer Demo.read_only;
     h_format_1f := h_format_1f Demo.read_only |}.

(** Temporary directories under [/tmp], joined the POSIX way. *)
Definition temp : GradioDownload.temp_services :=
  {| GradioDownload.t_mkdtemp := fun _ => Ok (py "/tmp/tmpab12");
     GradioDownload.t_join := fun dir name => dir ++ py "/" ++ name |}.

End DemoMore.

(* ===================================================================== *)
(** * Facts about the string builtins                                      *)
(* ===================================================================== *)

Section StringFacts.

Lemma eqb_refl (a : str) : eqb a a = true.
Proof.
  induction a as [|c a IH]; simpl; [reflexivity|].
  now rewrite N.eqb_refl, IH.
Qed.

Lemma eqb_eq (a b : str) : eqb a b = true <-> a = b.
Proof.
  split.
  - revert b; induction a as [|c a IH]; intros [|d b]; simpl;
      try discriminate; [reflexivity|].
    intros H; apply andb_true_iff in H as [Hc Hr].
    apply N.eqb_eq in Hc; apply IH in Hr; congruence.
  - intros ->; apply eqb_refl.
Qed.

Lemma eqb_neq (a b : str) : eqb a b = false <-> a <> b.
Proof.
  rewrite <- eqb_eq; destruct (eqb a b); split; congruence.
Qed.

Lemma lstrip_blank (s : str) : lstrip s = [] <-> forallb isspace s = true.
Proof.
  induction s as [|c s IH]; simpl; [tauto|].
  destruct (isspace c); simpl; [exact IH|].
  split; discriminate.
Qed.

Lemma lstrip_keeps_blankness (s : str) :
  forallb isspace (lstrip s) = forallb isspace s.
Proof.
  induction s as [|c s IH]; simpl; [reflexivity|].
  destruct (isspace c) eqn:E; simpl; [exact IH|].
  now rewrite E.
Qed.

Lemma forallb_rev (A : Type) (f : A -> bool) (l : list A) :
  forallb f (rev l) = forallb f l.
Proof.
  induction l as [|x l IH]; simpl; [reflexivity|].
  rewrite forallb_app, IH; simpl.
  rewrite andb_true_r; apply andb_comm.
Qed.

Lemma rstrip_blank (s : str) : rstrip s = [] <-> forallb isspace s = true.
Proof.
  unfold rstrip.
  rewrite <- (forallb_rev _ isspace s), <- lstrip_blank.
  split; intros H.
  - apply (f_equal (@rev char)) in H; now rewrite rev_involutive in H.
  - now rewrite H.
Qed.

(** [s.strip()] is empty exactly when [s] holds nothing but whitespace
    (the empty string included). *)
Lemma strip_blank (s : str) : strip s = [] <-> forallb isspace s = true.
Proof.
  unfold strip; rewrite rstrip_blank; now rewrite lstrip_keeps_blankness.
Qed.

End StringFacts.

(* ===================================================================== *)
(** * summarizer.py: the facade and the length-reduction metric            *)
(* ===================================================================== *)

Section SummarizerFacts.
Import Summarizer.

Lemma summary_word_count (summary : str) :
  match summary with
  | [] => 0%Z
  | _ => Z.of_nat (length (split summary))
  end = Z.of_nat (length (split summary)).
Proof. destruct summary; reflexivity. Qed.

Lemma summarize_blank (h : host) (ts : TextSummarizer) (text : str)
    (tr : trace) :
  forallb isspace text = true ->
  summarize h ts text tr = (tr, Raise EmptyInput).
Proof.
  intros Hblank; apply strip_blank in Hblank.
  unfold summarize; rewrite Hblank.
  now rewrite orb_true_r.
Qed.

Lemma summarize_nonblank (h : host) (ts : TextSummarizer) (text : str)
    (tr : trace) :
  strip text <> [] ->
  summarize h ts text tr =
    (tr ++ [EvInfer (_pipeline ts)
              {| req_text := text;
                 req_max_length := max_length ts;
                 req_min_length := min_length ts;
                 req_do_sample := do_sample ts;
                 req_truncation := true |}],
     match h_infer h tr (_pipeline ts)
             {| req_text := text;
                req_max_length := max_length ts;
                req_min_length := min_length ts;
                req_do_sample := do_sample ts;
                req_truncation := true |} with
     | Ok result => getitem result 0
     | Raise e => Raise e
     end).
Proof.
  intros Hfull.
  unfold summarize.
  destruct text as [|c t]; [now elim Hfull|].
  destruct (strip (c :: t)) eqn:E; [now elim Hfull|].
  cbn [orb].
  unfold bind, perform, lift.
  match goal with |- context [h_infer ?a ?b ?c ?d] =>
    now destruct (h_infer a b c d) end.
Qed.

(** C3.  A text that is empty or holds only whitespace makes [summarize]
    raise [EmptyInput] with the log untouched: the pipeline is not called,
    nor is anything else done.  A text with something left after trimming
    goes past that test: the pipeline is called once, with that text and
    the settings of the facade, and the outcome is the pipeline's. *)
Theorem summarize_blank_is_EmptyInput (h : host) (ts : TextSummarizer)
    (text : str) (tr : trace) :
  (forallb isspace text = true ->
   summarize h ts text tr = (tr, Raise EmptyInput))
  /\
  (strip text <> [] ->
   let r := {| req_text := text;
               req_max_length := max_length ts;
               req_min_length := min_length ts;
               req_do_sample := do_sample ts;
               req_truncation := true |} in
   summarize h ts text tr =
     (tr ++ [EvInfer (_pipeline ts) r],
      match h_infer h tr (_pipeline ts) r with
      | Ok result => getitem result 0
      | Raise e => Raise e
      end)).
Proof.
  split.
  - apply summarize_blank.
  - intros Hfull r; now apply summarize_nonblank.
Qed.

Lemma compute_length_reduction_total (original summary : str) :
  exists stats, compute_length_reduction original summary = Ok stats.
Proof.
  unfold compute_length_reduction, truediv.
  destruct (Z.of_nat (length (split original)) =? 0)%Z; eauto.
Qed.

(** C5.  An original without any word gives [(0, summaryWordCount, 0.0)],
    and no input at all makes the metric raise: the quotient is only formed
    with a divisor that is not zero. *)
Theorem empty_original_never_divides :
  (forall original summary : str,
      length (split original) = 0%nat ->
      compute_length_reduction original summary
        = Ok (0%Z, Z.of_nat (length (split summary)), 0%Q))
  /\
  (forall original summary : str,
      exists stats, compute_length_reduction original summary = Ok stats).
Proof.
  split.
  - intros original summary Hnone.
    unfold compute_length_reduction.
    now rewrite summary_word_count, Hnone.
  - apply compute_length_reduction_total.
Qed.

Lemma empty_original_never_divides_witness :
  length (split (py "  ")) = 0%nat
  /\ compute_length_reduction (py "  ") (py "one two")
       = Ok (0%Z, 2%Z, 0%Q).
Proof.
  split; [reflexivity|].
  exact (proj1 empty_original_never_divides (py "  ") (py "one two")
           eq_refl).
Defined.

Lemma summarize_blank_is_EmptyInput_witness :
  summarize Demo.read_only Demo.facade (py "  ") [] = ([], Raise EmptyInput)
  /\ summarize Demo.read_only Demo.facade (py "to be shortened") []
     = ([EvInfer (py "t5-small")
           {| req_text := py "to be shortened";
              req_max_length := 60; req_min_length := 20;
              req_do_sample := false; req_truncation := true |}],
        Ok (py "a short summary")).
Proof.
  destruct (summarize_blank_is_EmptyInput Demo.read_only Demo.facade
              (py "  ") []) as [Hblank _].
  destruct (summarize_blank_is_EmptyInput Demo.read_only Demo.facade
              (py "to be shortened") []) as [_ Hfull].
  split; [exact (Hblank eq_refl)|].
  apply Hfull; vm_compute; discriminate.
Defined.

(** The scenario of the specification: four words cut down to two (a
    fraction binary64 holds exactly). *)
Example reduction_by_half :
  exists r, compute_length_reduction (py "one two three four") (py "one two")
            = Ok (4%Z, 2%Z, r) /\ (r == 1 # 2)%Q.
Proof. eexists; split; reflexivity. Qed.

End SummarizerFacts.
(* ===================================================================== *)
(** * summarizer.py: the metric in binary64                                *)
(* ===================================================================== *)

Section Binary64Facts.
Import Binary64.
Local Open Scope Z_scope.

Lemma round_half_even_lower (num den k : Z) :
  0 < den -> k * den <= num -> k <= round_half_even num den.
Proof.
  intros Hden H; unfold round_half_even.
  assert (Hq : k <= num / den) by (apply Z.div_le_lower_bound; lia).
  destruct (2 * (num mod den) ?= den); [destruct (Z.even _)|..]; lia.
Qed.

Lemma round_half_even_upper (num den k : Z) :
  0 < den -> num <= k * den -> round_half_even num den <= k.
Proof.
  intros Hden H; unfold round_half_even.
  pose proof (Z.div_mod num den ltac:(lia)) as Hdm.
  pose proof (Z.mod_pos_bound num den Hden) as Hr.
  destruct (Z.compare_spec (2 * (num mod den)) den) as [E|E|E];
    [destruct (Z.even _)|..]; nia.
Qed.

Lemma round_half_even_above (num den k : Z) :
  0 < den -> (2 * k + 1) * den < 2 * num ->
  k + 1 <= round_half_even num den.
Proof.
  intros Hden H; unfold round_half_even.
  pose proof (Z.div_mod num den ltac:(lia)) as Hdm.
  pose proof (Z.mod_pos_bound num den Hden) as Hr.
  destruct (Z.compare_spec (2 * (num mod den)) den) as [E|E|E];
    [destruct (Z.even _)|..]; nia.
Qed.

Lemma round_half_even_error (num den : Z) :
  0 < den ->
  2 * Z.abs (round_half_even num den * den - num) <= den.
Proof.
  intros Hden; unfold round_half_even.
  pose proof (Z.div_mod num den ltac:(lia)) as Hdm.
  pose proof (Z.mod_pos_bound num den Hden) as Hr.
  destruct (Z.compare_spec (2 * (num mod den)) den) as [E|E|E];
    [destruct (Z.even _)|..]; nia.
Qed.

Lemma mag_bounds (a b s : Z) :
  0 < a -> 0 < b -> 0 <= s -> 0 <= s + mag a b ->
  b * 2 ^ (s + mag a b) <= a * 2 ^ s
  /\ a * 2 ^ s < b * 2 ^ (s + mag a b + 1).
Proof.
  intros Ha Hb Hs; unfold mag.
  destruct (Z.leb_spec b a) as [Hba|Hab]; intros Hsm.
  - pose proof (Z.div_mod a b ltac:(lia)) as Hdm.
    pose proof (Z.mod_pos_bound a b Hb) as Hr.
    assert (Hq : 1 <= a / b) by (apply Z.div_le_lower_bound; lia).
    destruct (Z.log2_spec (a / b) ltac:(lia)) as [Hlo Hhi].
    pose proof (Z.log2_nonneg (a / b)) as Hm.
    set (m := Z.log2 (a / b)) in *.
    replace (s + m + 1) with (s + Z.succ m) by lia.
    rewrite !Z.pow_add_r by lia.
    assert (H2s : 0 < 2 ^ s) by (apply Z.pow_pos_nonneg; lia).
    assert (H1 : b * 2 ^ m <= a) by nia.
    assert (H2 : a < b * 2 ^ Z.succ m) by nia.
    split.
    + rewrite (Z.mul_comm (2 ^ s)), Z.mul_assoc.
      apply Z.mul_le_mono_nonneg_r; lia.
    + rewrite (Z.mul_comm (2 ^ s)), Z.mul_assoc.
      apply Z.mul_lt_mono_pos_r; lia.
  - set (c := (b + a - 1) / a) in *.
    pose proof (Z.div_mod (b + a - 1) a ltac:(lia)) as Hdm.
    pose proof (Z.mod_pos_bound (b + a - 1) a Ha) as Hr.
    fold c in Hdm.
    assert (Hc : 2 <= c) by (apply Z.div_le_lower_bound; lia).
    destruct (Z.log2_up_spec c ltac:(lia)) as [Hlo Hhi].
    pose proof (Z.log2_up_pos c ltac:(lia)) as Hk.
    set (k := Z.log2_up c) in *.
    assert (H1 : b <= a * 2 ^ k) by nia.
    assert (H2 : a * 2 ^ Z.pred k < b) by nia.
    replace (s + - k + 1) with (s - k + 1) by lia.
    replace (s + - k) with (s - k) in * by lia.
    assert (E1 : 2 ^ s = 2 ^ k * 2 ^ (s - k)).
    { rewrite <- Z.pow_add_r by lia; f_equal; lia. }
    assert (E2 : 2 ^ (s - k + 1) = 2 * 2 ^ (s - k)).
    { rewrite Z.pow_add_r by lia; lia. }
    assert (E3 : 2 ^ k = 2 * 2 ^ Z.pred k).
    { rewrite <- Z.pow_succ_r by lia; f_equal; lia. }
    assert (Hp : 0 < 2 ^ (s - k)) by (apply Z.pow_pos_nonneg; lia).
    assert (Hp' : 0 < 2 ^ Z.pred k) by (apply Z.pow_pos_nonneg; lia).
    rewrite E1, E2.
    split.
    + rewrite Z.mul_assoc.
      apply Z.mul_le_mono_nonneg_r; lia.
    + rewrite Z.mul_assoc, E3.
      replace (b * (2 * 2 ^ (s - k))) with (b * 2 * 2 ^ (s - k)) by ring.
      apply Z.mul_lt_mono_pos_r; lia.
Qed.

Lemma pow2_pos (k : Z) : 0 <= k -> 0 < 2 ^ k.
Proof. intros; apply Z.pow_pos_nonneg; lia. Qed.

Lemma pow2_split (j k : Z) : 0 <= j <= k -> 2 ^ k = 2 ^ (k - j) * 2 ^ j.
Proof. intros; rewrite <- Z.pow_add_r by lia; f_equal; lia. Qed.

Lemma mag_le (a b k : Z) :
  0 < a -> 0 < b -> 0 <= k -> a <= b * 2 ^ k -> mag a b <= k.
Proof.
  intros Ha Hb Hk H; unfold mag.
  destruct (Z.leb_spec b a) as [Hba|Hab].
  - rewrite <- (Z.log2_pow2 k Hk).
    apply Z.log2_le_mono, Z.div_le_upper_bound; lia.
  - pose proof (Z.log2_up_nonneg ((b + a - 1) / a)); lia.
Qed.

Lemma mag_ge (a b k : Z) :
  0 < a -> 0 < b -> 0 <= k -> b * 2 ^ k <= a -> k <= mag a b.
Proof.
  intros Ha Hb Hk H; unfold mag.
  pose proof (pow2_pos k Hk) as Hp.
  destruct (Z.leb_spec b a) as [Hba|Hab]; [|nia].
  rewrite <- (Z.log2_pow2 k Hk).
  apply Z.log2_le_mono, Z.div_le_lower_bound; lia.
Qed.

Lemma value_nonneg (n e : Z) : 0 <= n -> (0 <= value n e)%Q.
Proof.
  intros Hn; unfold value.
  destruct (Z.leb_spec 0 e) as [He|He]; unfold Qle, inject_Z; cbn.
  - pose proof (pow2_pos e He); nia.
  - lia.
Qed.

Lemma value_pos (n e : Z) : 0 < n -> (0 < value n e)%Q.
Proof.
  intros Hn; unfold value.
  destruct (Z.leb_spec 0 e) as [He|He]; unfold Qlt, inject_Z; cbn.
  - pose proof (pow2_pos e He); nia.
  - lia.
Qed.

Lemma value_le_mono (n n' e : Z) : n <= n' -> (value n e <= value n' e)%Q.
Proof.
  intros Hn; unfold value.
  destruct (Z.leb_spec 0 e) as [He|He]; unfold Qle, inject_Z; cbn.
  - pose proof (pow2_pos e He); nia.
  - nia.
Qed.

Lemma value_pow (j e : Z) :
  0 <= j -> 0 <= j + e -> (value (2 ^ j) e == inject_Z (2 ^ (j + e)))%Q.
Proof.
  intros Hj Hje; unfold value.
  destruct (Z.leb_spec 0 e) as [He|He]; unfold Qeq, inject_Z; cbn.
  - now rewrite Z.pow_add_r by lia.
  - rewrite Z2Pos.id by (apply pow2_pos; lia).
    rewrite <- Z.pow_add_r by lia.
    rewrite Z.mul_1_r; f_equal; lia.
Qed.

(** The significand [round_pos] rounds to. *)
Lemma round_pos_cases (a b : Z) (P : Z -> Z -> Z -> Prop) :
  (forall e, e = exponent a b -> 0 <= e -> P e a (b * 2 ^ e)) ->
  (forall e, e = exponent a b -> e < 0 -> P e (a * 2 ^ (- e)) b) ->
  exists e num den,
    e = exponent a b
    /\ round_pos a b = value (round_half_even num den) e
    /\ P e num den.
Proof.
  intros Hup Hdown; unfold round_pos.
  destruct (Z.leb_spec 0 (exponent a b)) as [He|He].
  - exists (exponent a b), a, (b * 2 ^ exponent a b); auto.
  - exists (exponent a b), (a * 2 ^ (- exponent a b)), b; auto.
Qed.

Lemma round_pos_nonneg (a b : Z) :
  0 < a -> 0 < b -> (0 <= round_pos a b)%Q.
Proof.
  intros Ha Hb.
  destruct (round_pos_cases a b
              (fun _ num den => 0 < den /\ 0 <= num))
    as (e & num & den & _ & -> & Hden & Hnum).
  - intros e _ He; pose proof (pow2_pos e He); nia.
  - intros e _ He; pose proof (pow2_pos (- e) ltac:(lia)); nia.
  - apply value_nonneg, round_half_even_lower; lia.
Qed.

Lemma exponent_le (a b k : Z) :
  0 < a -> 0 < b -> 0 <= k -> a <= b * 2 ^ k -> exponent a b <= k.
Proof.
  intros Ha Hb Hk H; unfold exponent.
  pose proof (mag_le a b k Ha Hb Hk H); lia.
Qed.

(** What is at most [2 ^ k] rounds to at most [2 ^ k]. *)
Lemma round_pos_upper (a b k : Z) :
  0 < a -> 0 < b -> 0 <= k -> a <= b * 2 ^ k ->
  (round_pos a b <= inject_Z (2 ^ k))%Q.
Proof.
  intros Ha Hb Hk H.
  pose proof (exponent_le a b k Ha Hb Hk H) as Hek.
  destruct (round_pos_cases a b
              (fun e num den => e <= k /\ 0 < den /\ num <= 2 ^ (k - e) * den))
    as (e & num & den & _ & -> & Hle & Hden & Hnum).
  - intros e -> He; split; [exact Hek|].
    pose proof (pow2_pos _ He).
    split; [nia|].
    rewrite (pow2_split (exponent a b) k) in H by lia; lia.
  - intros e -> He; split; [exact Hek|].
    split; [lia|].
    replace (k - exponent a b) with (k + - exponent a b) by lia.
    rewrite Z.pow_add_r by lia.
    pose proof (pow2_pos (- exponent a b) ltac:(lia)); nia.
  - eapply Qle_trans;
      [apply value_le_mono, (round_half_even_upper num den _ Hden Hnum)|].
    rewrite value_pow by lia.
    replace (k - e + e) with k by lia.
    apply Qle_refl.
Qed.

(** In the normal range the significand has its 53 bits. *)
Lemma round_pos_normal (a b : Z) :
  0 < a -> 0 < b -> -1022 <= mag a b ->
  (value (2 ^ 52) (mag a b - 52) <= round_pos a b)%Q.
Proof.
  intros Ha Hb Hm.
  assert (He : exponent a b = mag a b - 52) by (unfold exponent; lia).
  destruct (round_pos_cases a b
              (fun e num den => 0 < den /\ 2 ^ 52 * den <= num))
    as (e & num & den & Ee & -> & Hden & Hnum).
  - intros e Ee He0.
    pose proof (pow2_pos _ He0).
    split; [nia|].
    destruct (mag_bounds a b 0 Ha Hb ltac:(lia) ltac:(lia)) as [Hlo _].
    rewrite Z.pow_0_r, Z.mul_1_r, Z.add_0_l in Hlo.
    rewrite (pow2_split e (mag a b)) in Hlo by lia.
    replace (mag a b - e) with 52 in Hlo by lia.
    lia.
  - intros e Ee He0.
    split; [lia|].
    destruct (mag_bounds a b (- e) Ha Hb ltac:(lia) ltac:(lia)) as [Hlo _].
    replace (- e + mag a b) with 52 in Hlo by lia.
    lia.
  - rewrite <- He, <- Ee.
    apply value_le_mono, round_half_even_lower; assumption.
Qed.

(** What is at least [2 ^ k] rounds to at least [2 ^ k]. *)
Lemma round_pos_lower (a b k : Z) :
  0 < a -> 0 < b -> 0 <= k -> b * 2 ^ k <= a ->
  (inject_Z (2 ^ k) <= round_pos a b)%Q.
Proof.
  intros Ha Hb Hk H.
  pose proof (mag_ge a b k Ha Hb Hk H) as Hm.
  eapply Qle_trans; [|apply round_pos_normal; lia].
  rewrite value_pow by lia.
  rewrite <- Zle_Qle.
  apply Z.pow_le_mono_r; lia.
Qed.

(** Nothing from the smallest subnormal number upwards rounds to zero. *)
Lemma round_pos_pos (a b : Z) :
  0 < a -> 0 < b -> b <= a * 2 ^ 1074 -> (0 < round_pos a b)%Q.
Proof.
  intros Ha Hb H.
  destruct (round_pos_cases a b
              (fun e num den => 0 < den /\ 1 * den <= num))
    as (e & num & den & _ & -> & Hden & Hnum).
  - intros e Ee He0.
    pose proof (pow2_pos _ He0).
    split; [nia|].
    assert (Hm : 52 <= mag a b) by (unfold exponent in Ee; lia).
    destruct (mag_bounds a b 0 Ha Hb ltac:(lia) ltac:(lia)) as [Hlo _].
    rewrite Z.pow_0_r, Z.mul_1_r, Z.add_0_l in Hlo.
    assert (2 ^ e <= 2 ^ mag a b)
      by (apply Z.pow_le_mono_r; unfold exponent in Ee; lia).
    nia.
  - intros e Ee He0.
    split; [lia|].
    destruct (Z.le_gt_cases (-1022) (mag a b)) as [Hm|Hm].
    + assert (E : - e = 52 - mag a b) by (unfold exponent in Ee; lia).
      destruct (mag_bounds a b (- e) Ha Hb ltac:(lia) ltac:(lia)) as [Hlo _].
      replace (- e + mag a b) with 52 in Hlo by lia.
      pose proof (pow2_pos 52 ltac:(lia)); nia.
    + replace (- e) with 1074 by (unfold exponent in Ee; lia).
      lia.
  - apply value_pos.
    pose proof (round_half_even_lower num den 1 Hden Hnum); lia.
Qed.

(** A quotient above one by a denominator below [2 ^ 53] rounds to a number
    above one. *)
Lemma round_pos_above_one (a b : Z) :
  0 < b -> b < 2 ^ 53 -> b < a ->
  (value (2 ^ 52 + 1) (-52) <= round_pos a b)%Q.
Proof.
  intros Hb Hb53 Hab.
  destruct (Z.le_gt_cases (b * 2 ^ 1) a) as [H2|H2].
  - eapply Qle_trans;
      [|apply (round_pos_lower a b 1); lia].
    vm_compute; discriminate.
  - assert (Hq : a / b = 1)
      by (symmetry; apply (Z.div_unique a b 1 (a - b)); lia).
    assert (Hm : mag a b = 0).
    { unfold mag.
      destruct (Z.leb_spec b a); [|lia].
      now rewrite Hq. }
    unfold round_pos, exponent; rewrite Hm.
    change (Z.max (0 - 52) (-1074)) with (-52).
    change (0 <=? -52) with false; cbv iota.
    apply value_le_mono.
    change (- -52) with 52.
    apply round_half_even_above; [lia|].
    change (2 ^ 52) with 4503599627370496.
    change (2 ^ 53) with 9007199254740992 in Hb53.
    lia.
Qed.

Lemma round_negative (x : Q) (k : Z) :
  0 < k <= 1074 -> (x <= - value 1 (- k))%Q -> (round x < 0)%Q.
Proof.
  intros Hk; destruct x as [n d].
  unfold value.
  destruct (Z.leb_spec 0 (- k)) as [Hk0|_]; [lia|].
  unfold Qle; cbn [Qnum Qden Qopp].
  rewrite Z.opp_involutive, Z2Pos.id by (apply pow2_pos; lia).
  intros H.
  assert (Hp : 2 ^ k <= 2 ^ 1074) by (apply Z.pow_le_mono_r; lia).
  pose proof (pow2_pos k ltac:(lia)) as Hpk.
  destruct n as [|p|p]; try nia.
  unfold round; cbn [Qnum Qden].
  assert (Hr : (0 < round_pos (Z.pos p) (Z.pos d))%Q)
    by (apply round_pos_pos; nia).
  revert Hr; generalize (round_pos (Z.pos p) (Z.pos d)); intros q.
  unfold Qlt; cbn; lia.
Qed.

Lemma round_div (a b : Z) :
  0 < a -> 0 < b -> round (inject_Z a / inject_Z b) = round_pos a b.
Proof.
  intros Ha Hb.
  destruct a as [|a|a]; try lia.
  destruct b as [|b|b]; try lia.
  unfold round, Qdiv, Qmult, Qinv, inject_Z; cbn [Qnum Qden].
  rewrite Z.mul_1_r; cbn [Z.mul Pos.mul].
  reflexivity.
Qed.

Lemma round_div_zero (b : Z) : round (inject_Z 0 / inject_Z b) = 0%Q.
Proof. reflexivity. Qed.

Lemma round_div_nonneg (a b : Z) :
  0 <= a -> 0 < b -> (0 <= round (inject_Z a / inject_Z b))%Q.
Proof.
  intros Ha Hb.
  destruct (Z.eq_dec a 0) as [->|Hne].
  - rewrite round_div_zero; apply Qle_refl.
  - rewrite round_div by lia; apply round_pos_nonneg; lia.
Qed.

(** The quotient of two word counts has a binary64: nothing overflows. *)
Lemma truediv_of_counts (a b : Z) :
  0 <= a -> a < 2 ^ 63 -> 0 < b ->
  truediv a b = Ok (round (inject_Z a / inject_Z b)).
Proof.
  intros Ha Ha63 Hb; unfold truediv.
  destruct (Z.eqb_spec b 0) as [->|_]; [lia|].
  assert (Hfin : is_finite (round (inject_Z a / inject_Z b)) = true);
    [|now rewrite Hfin].
  unfold is_finite.
  assert (Hlt : (Qabs (round (inject_Z a / inject_Z b))
                 < inject_Z (2 ^ 1024))%Q).
  { rewrite Qabs_pos by (apply round_div_nonneg; lia).
    apply Qle_lt_trans with (inject_Z (2 ^ 63)).
    - destruct (Z.eq_dec a 0) as [->|Hne].
      + rewrite round_div_zero; vm_compute; discriminate.
      + rewrite round_div by lia.
        apply round_pos_upper; lia.
    - rewrite <- Zlt_Qlt.
      apply Z.pow_lt_mono_r; lia. }
  now rewrite (proj1 (Qlt_alt _ _) Hlt).
Qed.

(** In binary64 too the metric returns for all word counts a list can
    have. *)
Lemma binary64_reduction_returns (original summary : str) :
  Z.of_nat (length (split summary)) < 2 ^ 63 ->
  exists stats, compute_length_reduction original summary = Ok stats.
Proof.
  intros HM; unfold compute_length_reduction.
  rewrite summary_word_count.
  destruct (Z.eqb_spec (Z.of_nat (length (split original))) 0) as [E|E];
    [eauto|].
  rewrite truediv_of_counts by lia; eauto.
Qed.

End Binary64Facts.

Section Binary64Accuracy.
Import Binary64.
Local Open Scope Z_scope.

Lemma mag_ge_neg (a b j : Z) :
  0 < a -> 0 < b -> 0 <= j -> b <= a * 2 ^ j -> - j <= mag a b.
Proof.
  intros Ha Hb Hj H; unfold mag.
  destruct (Z.leb_spec b a) as [Hba|Hab].
  - pose proof (Z.log2_nonneg (a / b)); lia.
  - rewrite <- (Z.log2_up_pow2 j Hj) at 1.
    apply Z.opp_le_mono; rewrite !Z.opp_involutive.
    apply Z.log2_up_le_mono.
    apply Z.lt_succ_r, Z.div_lt_upper_bound; lia.
Qed.

Lemma round_pos_relative (a : Z) (d : positive) :
  0 < a -> Z.pos d <= a * 2 ^ 1022 ->
  ((a # d) * (1 - unit_roundoff) <= round_pos a (Z.pos d)
   /\ round_pos a (Z.pos d) <= (a # d) * (1 + unit_roundoff))%Q.
Proof.
  intros Ha Hnormal.
  assert (Hm : -1022 <= mag a (Z.pos d))
    by (apply (mag_ge_neg a (Z.pos d) 1022); lia).
  assert (He : exponent a (Z.pos d) = mag a (Z.pos d) - 52)
    by (unfold exponent; lia).
  unfold round_pos; rewrite He.
  set (m := mag a (Z.pos d)) in *.
  unfold value.
  destruct (Z.leb_spec 0 (m - 52)) as [He0|He0].
  - destruct (mag_bounds a (Z.pos d) 0 Ha ltac:(lia) ltac:(lia) ltac:(lia))
      as [Hlo _].
    fold m in Hlo.
    rewrite Z.pow_0_r, Z.mul_1_r, Z.add_0_l in Hlo.
    rewrite (pow2_split (m - 52) m) in Hlo by lia.
    replace (m - (m - 52)) with 52 in Hlo by lia.
    pose proof (pow2_pos (m - 52) He0) as Hp.
    set (p := 2 ^ (m - 52)) in *.
    pose proof (round_half_even_error a (Z.pos d * p) ltac:(nia)) as Herr.
    set (n := round_half_even a (Z.pos d * p)) in *.
    change (2 ^ 52) with 4503599627370496 in Hlo.
    clearbody n p.
    unfold Qle, Qminus, Qmult, Qplus, Qopp, inject_Z, unit_roundoff;
      cbn [Qnum Qden].
    rewrite !Pos2Z.inj_mul.
    split; lia.
  - destruct (mag_bounds a (Z.pos d) (- (m - 52)) Ha
                ltac:(lia) ltac:(lia) ltac:(lia)) as [Hlo _].
    fold m in Hlo.
    replace (- (m - 52) + m) with 52 in Hlo by lia.
    pose proof (pow2_pos (- (m - 52)) ltac:(lia)) as Hp.
    set (p := 2 ^ (- (m - 52))) in *.
    pose proof (round_half_even_error (a * p) (Z.pos d) ltac:(lia)) as Herr.
    set (n := round_half_even (a * p) (Z.pos d)) in *.
    change (2 ^ 52) with 4503599627370496 in Hlo.
    clearbody n p.
    unfold Qle, Qminus, Qmult, Qplus, Qopp, inject_Z, unit_roundoff;
      cbn [Qnum Qden].
    rewrite !Pos2Z.inj_mul, Z2Pos.id by exact Hp.
    split; lia.
Qed.

Lemma round_relative (x : Q) :
  Qnum x = 0 \/ normal x ->
  ((0 <= x ->
    x * (1 - unit_roundoff) <= round x
    /\ round x <= x * (1 + unit_roundoff))
   /\
   (x <= 0 ->
    x * (1 + unit_roundoff) <= round x
    /\ round x <= x * (1 - unit_roundoff)))%Q.
Proof.
  destruct x as [n d]; unfold normal; cbn [Qnum Qden]; intros Hx.
  destruct n as [|p|p].
  - unfold round; cbn [Qnum].
    split; intros _; split; unfold Qle; cbn; lia.
  - assert (Hn : Z.pos d <= Z.pos p * 2 ^ 1022) by (destruct Hx; lia).
    split.
    + intros _.
      exact (round_pos_relative (Z.pos p) d ltac:(lia) Hn).
    + unfold Qle at 1; cbn; lia.
  - assert (Hn : Z.pos d <= Z.pos p * 2 ^ 1022) by (destruct Hx; lia).
    split.
    + unfold Qle at 1; cbn; lia.
    + intros _.
      destruct (round_pos_relative (Z.pos p) d ltac:(lia) Hn) as [Hlo Hhi].
      unfold round; cbn [Qnum Qden].
      change (Z.neg p # d)%Q with (- (Z.pos p # d))%Q.
      revert Hlo Hhi.
      generalize (round_pos (Z.pos p) (Z.pos d)) (Z.pos p # d)%Q.
      unfold unit_roundoff; intros q x Hlo Hhi.
      split; lra.
Qed.

(** One minus a binary64 number that is not too fine-grained is zero or
    normal. *)
Lemma one_minus_value_normal (n e : Z) :
  -1022 <= e ->
  Qnum (1 - value n e) = 0 \/ normal (1 - value n e).
Proof.
  intros He; unfold value, normal.
  destruct (Z.leb_spec 0 e) as [He0|He0];
    unfold Qminus, Qplus, Qopp, inject_Z; cbn [Qnum Qden].
  - lia.
  - pose proof (pow2_pos (- e) ltac:(lia)) as Hp.
    assert (Hle : 2 ^ (- e) <= 2 ^ 1022) by (apply Z.pow_le_mono_r; lia).
    rewrite Pos2Z.inj_mul, Z2Pos.id by exact Hp.
    nia.
Qed.

Lemma round_pos_is_value (a b : Z) :
  exists n, round_pos a b = value n (exponent a b).
Proof. unfold round_pos; eexists; reflexivity. Qed.

(** How far line 49 can be from [1 - a / b]. *)
Lemma reduction_accuracy (a b : Z) :
  0 <= a -> a < 2 ^ 53 -> 0 < b -> b < 2 ^ 53 ->
  let x := (inject_Z a / inject_Z b)%Q in
  let r := round (1 - round x) in
  (a <= b -> (Qabs (r - (1 - x)) <= 1 # 4503599627370496)%Q)
  /\ (b <= a -> (Qabs (r - (1 - x)) <= (1 # 4503599627370496) * x)%Q).
Proof.
  intros Ha Ha53 Hb Hb53 x r.
  destruct b as [|b|b]; try lia.
  assert (Ex : x = (a * 1 # 1 * b)%Q) by reflexivity.
  assert (Hx0 : (0 <= x)%Q) by (rewrite Ex; unfold Qle; cbn; lia).
  assert (Hx53 : (x <= inject_Z (2 ^ 53))%Q).
  { rewrite Ex; unfold Qle, inject_Z; cbn [Qnum Qden].
    change (2 ^ 53) with 9007199254740992 in *.
    rewrite !Pos2Z.inj_mul; lia. }
  change (2 ^ 53) with 9007199254740992 in *.
  assert (Hxn : Qnum x = 0 \/ normal x).
  { destruct (Z.eq_dec a 0) as [->|Hne]; [now left|right].
    rewrite Ex; unfold normal; cbn [Qnum Qden]; lia. }
  destruct (proj1 (round_relative x Hxn) Hx0) as [Hqlo Hqhi].
  assert (Hyn : Qnum (1 - round x) = 0 \/ normal (1 - round x)).
  { destruct (Z.eq_dec a 0) as [->|Hne].
    - right; vm_compute; discriminate.
    - unfold x; rewrite (round_div a (Z.pos b)) by lia.
      destruct (round_pos_is_value a (Z.pos b)) as [n ->].
      apply one_minus_value_normal.
      pose proof (mag_ge_neg a (Z.pos b) 53
                    ltac:(lia) ltac:(lia) ltac:(lia) ltac:(lia)).
      unfold exponent; lia. }
  destruct (round_relative (1 - round x) Hyn) as [Hpos Hneg].
  fold r in Hpos, Hneg.
  revert Hqlo Hqhi Hpos Hneg; generalize (round x); intros q.
  unfold unit_roundoff; intros Hqlo Hqhi Hpos Hneg.
  unfold inject_Z in Hx53.
  split; intros Hab.
  - assert (Hx1 : (x <= 1)%Q)
      by (rewrite Ex; unfold Qle; cbn [Qnum Qden]; lia).
    apply Qabs_Qle_condition.
    destruct (Qlt_le_dec (1 - q) 0) as [Hy|Hy].
    + destruct (Hneg ltac:(lra)); split; lra.
    + destruct (Hpos Hy); split; lra.
  - assert (Hx1 : (1 <= x)%Q)
      by (rewrite Ex; unfold Qle; cbn [Qnum Qden]; lia).
    apply Qabs_Qle_condition.
    destruct (Qlt_le_dec (1 - q) 0) as [Hy|Hy].
    + destruct (Hneg ltac:(lra)); split; lra.
    + destruct (Hpos Hy); split; lra.
Qed.

End Binary64Accuracy.

Section ReductionInBinary64.
Import Binary64.

(** C4.  With the arithmetic of line 49 done in binary64, an original of
    [N > 0] words and a summary of [M] words (counts below [2 ^ 53]) give
    [(N, M, r)], where [r] is the binary64 number nearest to [1 - q] and [q]
    the one nearest to [M / N].  [r] is within [2 ^ -52] of [1 - M/N] when
    [M <= N], and within [2 ^ -52 * (M/N)] of it when [M >= N].  Nothing
    clamps it: it is negative as soon as [M > N]. *)
Theorem reduction_is_rounded (original summary : str) :
  let N := Z.of_nat (length (split original)) in
  let M := Z.of_nat (length (split summary)) in
  let r := round (1 - round (inject_Z M / inject_Z N)) in
  (0 < N)%Z -> (N < 2 ^ 53)%Z -> (M < 2 ^ 53)%Z ->
  compute_length_reduction original summary = Ok (N, M, r)
  /\ ((M <= N)%Z ->
      (Qabs (r - (1 - inject_Z M / inject_Z N))
       <= 1 # 4503599627370496)%Q)
  /\ ((N <= M)%Z ->
      (Qabs (r - (1 - inject_Z M / inject_Z N))
       <= (1 # 4503599627370496) * (inject_Z M / inject_Z N))%Q)
  /\ ((N < M)%Z -> (r < 0)%Q).
Proof.
  intros N M r HN HN53 HM53.
  assert (HM : (0 <= M)%Z) by apply Nat2Z.is_nonneg.
  destruct (reduction_accuracy M N HM HM53 HN HN53) as [Hle Hge].
  split; [|split; [exact Hle|split; [exact Hge|]]].
  - unfold compute_length_reduction.
    rewrite summary_word_count; fold N M.
    destruct (Z.eqb_spec N 0) as [E|_]; [lia|].
    rewrite (truediv_of_counts M N HM) by lia.
    reflexivity.
  - intros HNM.
    unfold r; rewrite (round_div M N) by lia.
    apply (round_negative _ 52); [lia|].
    pose proof (round_pos_above_one M N HN HN53 HNM) as Hq.
    revert Hq; generalize (round_pos M N); intros q.
    change (value (2 ^ 52 + 1) (-52))
      with (4503599627370497 # 4503599627370496)%Q.
    change (value 1 (- (52))) with (1 # 4503599627370496)%Q.
    intros Hq; lra.
Qed.

Lemma reduction_is_rounded_witness :
  compute_length_reduction (py "one") (py "one two")
    = Ok (1%Z, 2%Z, round (1 - round (inject_Z 2 / inject_Z 1)))
  /\ (round (1 - round (inject_Z 2 / inject_Z 1)) < 0)%Q.
Proof.
  destruct (reduction_is_rounded (py "one") (py "one two"))
    as (Hrun & _ & _ & Hneg); [reflexivity..|].
  split; [exact Hrun|].
  apply Hneg; reflexivity.
Defined.

(** Three words cut down to one: the fraction returned is the binary64
    number [0.6666666666666667], which is not [1 - 1/3]. *)
Lemma reduction_is_not_the_exact_fraction :
  exists r : Q,
    compute_length_reduction (py "a b c") (py "a") = Ok (3%Z, 1%Z, r)
    /\ (r == 3002399751580331 # 4503599627370496)%Q
    /\ ~ (r == 1 - inject_Z 1 / inject_Z 3)%Q.
Proof.
  eexists; split; [vm_compute; reflexivity|].
  split; [reflexivity|].
  vm_compute; discriminate.
Qed.

End ReductionInBinary64.

(* ===================================================================== *)
(** * Facts about logs                                                     *)
(* ===================================================================== *)

Section LogFacts.

Lemma inferences_app (tr tr' : trace) :
  inferences (tr ++ tr') = inferences tr ++ inferences tr'.
Proof.
  induction tr as [|ev tr IH]; simpl; [reflexivity|].
  destruct ev; simpl; now rewrite IH.
Qed.

Lemma in_firstn (A : Type) (n : nat) (l : list A) (x : A) :
  In x (firstn n l) -> In x l.
Proof.
  intros H; rewrite <- (firstn_skipn n l).
  apply in_or_app; now left.
Qed.

End LogFacts.


(* ===================================================================== *)
(** * evaluate_rouge.py: how many samples are evaluated                    *)
(* ===================================================================== *)

Section EvaluateFacts.
Import Summarizer EvaluateRouge.

Lemma samples_are_not_blank (a : args) :
  Forall (fun s => strip (text s) <> []) (samples a).
Proof.
  assert (H : Forall (fun s => strip (text s) <> []) SAMPLE_DATA).
  { repeat constructor; vm_compute; discriminate. }
  unfold samples, slice_to.
  rewrite Forall_forall in *; intros s Hs; apply H.
  eapply in_firstn; eauto.
Qed.

Lemma evaluate_samples_calls (h : host) (ts : TextSummarizer) :
  (forall tr m r, exists s rest, h_infer h tr m r = Ok (s :: rest)) ->
  forall (l : list sample) (predictions references : list str) (tr : trace),
    Forall (fun s => strip (text s) <> []) l ->
    exists tr' out,
      evaluate_samples h ts l predictions references tr = (tr', Ok out)
      /\ map req_text (inferences tr')
         = map req_text (inferences tr) ++ map text l.
Proof.
  intros Hinfer l; induction l as [|s l IH]; intros predictions references tr Hl.
  - exists tr, (predictions, references); simpl.
    now rewrite app_nil_r.
  - inversion Hl as [|? ? Hs Hl']; subst.
    cbn [evaluate_samples].
    unfold bind at 1.
    rewrite (@summarize_nonblank h ts (text s) tr Hs).
    match goal with |- context [h_infer h tr ?m ?r] =>
      destruct (Hinfer tr m r) as (s0 & rest & E); rewrite E end.
    cbn [getitem nth_error].
    unfold bind, print, perform.
    match goal with |- context [evaluate_samples h ts l ?p ?r ?t] =>
      destruct (IH p r t Hl') as (tr' & out & Hrun & Hcalls) end.
    exists tr', out; split; [exact Hrun|].
    rewrite Hcalls.
    repeat rewrite inferences_app; simpl.
    repeat rewrite app_nil_r.
    rewrite map_app; simpl.
    now rewrite <- app_assoc.
Qed.

(** Line 88, once [main] runs: whatever integer [--limit] is, it takes
    [max(1, min(limit, 3))] samples, one for a zero or negative limit, three
    for a limit above three.  On a host where loading and inference succeed
    the loop calls the pipeline once per selected sample, in order. *)
Theorem limit_is_clamped (a : args) :
  Z.of_nat (length (samples a)) = Z.max 1 (Z.min (limit a) 3)
  /\
  (forall (h : host) (tr : trace),
      cooperative h ->
      exists tr' out,
        main h a tr = (tr', Ok out)
        /\ map req_text (inferences tr')
           = map req_text (inferences tr) ++ map text (samples a)).
Proof.
  split.
  - unfold samples, slice_to.
    change (length SAMPLE_DATA) with 3%nat.
    rewrite length_firstn.
    change (length SAMPLE_DATA) with 3%nat.
    destruct (Z.max 1 (Z.min (limit a) (Z.of_nat 3)) <? 0)%Z eqn:E;
      [apply Z.ltb_lt in E | apply Z.ltb_ge in E]; lia.
  - intros h tr (Hload & Hrouge & Hinfer).
    unfold main, init, print, bind, perform, ret.
    rewrite Hload, Hrouge.
    match goal with |- context [evaluate_samples h ?ts ?l ?p ?r ?t] =>
      destruct (@evaluate_samples_calls h ts Hinfer l p r t
                  (samples_are_not_blank a)) as (tr' & out & Hrun & Hcalls) end.
    exists tr', out; split; [exact Hrun|].
    rewrite Hcalls.
    repeat rewrite inferences_app; simpl.
    now repeat rewrite app_nil_r.
Qed.
Lemma limit_is_clamped_witness :
  Z.of_nat (length (samples Demo.limit_zero)) = 1%Z
  /\ exists tr' out,
       main Demo.read_only Demo.limit_zero [] = (tr', Ok out)
       /\ map req_text (inferences tr')
          = map text (firstn 1 SAMPLE_DATA).
Proof.
  destruct (limit_is_clamped Demo.limit_zero) as [Hcount Hloop].
  split; [exact Hcount|].
  apply (Hloop Demo.read_only []).
  split; [reflexivity|].
  split; [reflexivity|].
  intros tr m r; exists (py "a short summary"), []; reflexivity.
Defined.

End EvaluateFacts.


(* ===================================================================== *)
(** * evaluate_rouge.py: the script does not get as far as [main]          *)
(* ===================================================================== *)

Section ScriptFacts.
Import EvaluateRouge EvaluateScript.

Lemma annotation_raises (tr : trace) :
  load_names annotation_of_SAMPLE_DATA tr
    = (tr, Raise (NameError (py "name 'List' is not defined"))).
Proof. reflexivity. Qed.

(** Where annotations are deferred, the script is [main]. *)
Lemma deferred_script_is_main (h : host) (a : args) (tr : trace) :
  script Deferred (ret tt) h a tr = main h a tr.
Proof. reflexivity. Qed.

(** C10.  Where annotations are evaluated as their statement runs, line 12
    raises [NameError] for [List], which nothing imports: the script ends
    there, whatever the arguments, and [main] is not called.  No sample is
    evaluated, so their number is never the [max(1, min(limit, 3))] that
    line 88 is written to select. *)
Theorem annotation_stops_the_script (prelude : io unit) (h : host)
    (a : args) (tr : trace) :
  let before := prelude tr in
  let run := script Eager prelude h a tr in
  run = (fst before,
         match snd before with
         | Ok _ => Raise (NameError (py "name 'List' is not defined"))
         | Raise e => Raise e
         end)
  /\ inferences (fst run) = inferences (fst before)
  /\ Z.of_nat (length (inferences (fst run)))
     <> (Z.of_nat (length (inferences (fst before)))
         + Z.max 1 (Z.min (limit a) 3))%Z.
Proof.
  intros before run.
  assert (Hrun : run = (fst before,
                        match snd before with
                        | Ok _ =>
                            Raise (NameError (py "name 'List' is not defined"))
                        | Raise e => Raise e
                        end)).
  { unfold run, before, script, bind.
    destruct (prelude tr) as [tr' [[]|e]]; reflexivity. }
  split; [exact Hrun|].
  rewrite Hrun; cbn [fst].
  split; [reflexivity|lia].
Qed.

(** The run the claim is tried on: [--limit 2], the other arguments at
    their defaults. *)
Example limit_two_evaluates_nothing :
  script Eager (ret tt) Demo.read_only
         {| model := py "bart"; max := 120; min := 40;
            do_sample := false; limit := 2 |} []
    = ([], Raise (NameError (py "name 'List' is not defined"))).
Proof. reflexivity. Qed.

End ScriptFacts.

(* ===================================================================== *)
(** * summarize_cli.py: the scans over [sys.argv]                          *)
(* ===================================================================== *)

Section ScanFacts.
Import Cli.

(** Index arithmetic of the script against the index-free reading. *)
Lemma index_value_of (flag : str) (l : list str) :
  match index flag l with
  | None => contains flag l = false /\ value_of flag l = None
  | Some i =>
      contains flag l = true
      /\ value_of flag l = Some (nth_error l (i + 1))
      /\ del_slice i (i + 2) l = without flag l
  end.
Proof.
  induction l as [|x l IH]; simpl; [tauto|].
  destruct (eqb x flag) eqn:E; simpl.
  - split; [reflexivity|].
    split; [now destruct l|].
    unfold del_slice; simpl; now destruct l.
  - destruct (index flag l) as [i|]; [|tauto].
    destruct IH as (Hc & Hv & Hd).
    split; [assumption|].
    split; [assumption|].
    unfold del_slice in *; simpl; now rewrite Hd.
Qed.

Lemma without_absent (flag : str) (l : list str) :
  value_of flag l = None -> without flag l = l.
Proof.
  induction l as [|x l IH]; simpl; [reflexivity|].
  destruct (eqb x flag); [discriminate|].
  intros H; now rewrite IH.
Qed.

Lemma int_raises_ValueError (s : str) (e : exn) :
  int s = Raise e -> index_or_value_error e = true.
Proof.
  unfold int.
  destruct (rev (skip_int_space (rev (skip_int_space s)))) as [|c t].
  - destruct (digits_from 0 0 false []) as [[n count]|];
      [destruct (int_max_str_digits <? count)%Z; [|discriminate]|];
      intros H; injection H as <-; reflexivity.
  - destruct (match c with 43%N => _ | 45%N => _ | _ => _ end) as [neg body].
    destruct (digits_from 0 0 false body) as [[n count]|];
      [destruct (int_max_str_digits <? count)%Z; [|discriminate]|];
      intros H; injection H as <-; reflexivity.
Qed.

Lemma scan_max_step (g : globals) (tr : trace) :
  scan_max g tr = scan_step (py "--max") usage_max decode_max g tr.
Proof.
  unfold scan_max, scan_step, decode_max.
  pose proof (index_value_of (py "--max") (argv g)) as Hix.
  unfold try_except, bind, lift, list_index, getitem.
  destruct (index (py "--max") (argv g)) as [i|].
  - destruct Hix as (Hc & Hv & Hd); rewrite Hc, Hv.
    destruct (nth_error (argv g) (i + 1)) as [v|]; [|reflexivity].
    destruct (int v) as [n|e] eqn:E.
    + unfold ret; cbn [argv set_max_length]; now rewrite Hd.
    + now rewrite (int_raises_ValueError _ _ E).
  - destruct Hix as (Hc & Hv); now rewrite Hc, Hv.
Qed.

Lemma scan_min_step (g : globals) (tr : trace) :
  scan_min g tr = scan_step (py "--min") usage_min decode_min g tr.
Proof.
  unfold scan_min, scan_step, decode_min.
  pose proof (index_value_of (py "--min") (argv g)) as Hix.
  unfold try_except, bind, lift, list_index, getitem.
  destruct (index (py "--min") (argv g)) as [i|].
  - destruct Hix as (Hc & Hv & Hd); rewrite Hc, Hv.
    destruct (nth_error (argv g) (i + 1)) as [v|]; [|reflexivity].
    destruct (int v) as [n|e] eqn:E.
    + unfold ret; cbn [argv set_min_length]; now rewrite Hd.
    + now rewrite (int_raises_ValueError _ _ E).
  - destruct Hix as (Hc & Hv); now rewrite Hc, Hv.
Qed.

Lemma scan_out_step (g : globals) (tr : trace) :
  scan_out g tr = scan_step (py "--out") usage_out decode_out g tr.
Proof.
  unfold scan_out, scan_step, decode_out.
  pose proof (index_value_of (py "--out") (argv g)) as Hix.
  unfold try_except, bind, lift, list_index, getitem.
  destruct (index (py "--out") (argv g)) as [i|].
  - destruct Hix as (Hc & Hv & Hd); rewrite Hc, Hv.
    destruct (nth_error (argv g) (i + 1)) as [v|]; [|reflexivity].
    unfold ret; cbn [argv set_output_file]; now rewrite Hd.
  - destruct Hix as (Hc & Hv); now rewrite Hc, Hv.
Qed.

Lemma scan_model_step (g : globals) (tr : trace) :
  scan_model g tr = scan_step (py "--model") usage_model decode_model g tr.
Proof.
  unfold scan_model, scan_step, decode_model, recognized,
    Gradio.build_model_name.
  pose proof (index_value_of (py "--model") (argv g)) as Hix.
  unfold try_except, bind, lift, list_index, getitem.
  destruct (index (py "--model") (argv g)) as [i|].
  - destruct Hix as (Hc & Hv & Hd); rewrite Hc, Hv.
    destruct (nth_error (argv g) (i + 1)) as [v|]; [|reflexivity].
    destruct (eqb (lower v) (py "bart")); cbn [orb].
    { unfold ret; cbn [argv set_model_name]; now rewrite Hd. }
    destruct (eqb (lower v) (py "distilbart")); cbn [orb].
    { unfold ret; cbn [argv set_model_name]; now rewrite Hd. }
    destruct (eqb (lower v) (py "t5")); cbn [orb].
    { unfold ret; cbn [argv set_model_name]; now rewrite Hd. }
    reflexivity.
  - destruct Hix as (Hc & Hv); now rewrite Hc, Hv.
Qed.

(** The argument phase as a chain of four steps and the final check. *)
Lemma parse_arguments_steps (args : list str) (tr : trace) :
  parse_arguments args tr
  = bind (scan_step (py "--model") usage_model decode_model (initial args))
      (fun g1 =>
       bind (scan_step (py "--max") usage_max decode_max g1)
         (fun g2 =>
          bind (scan_step (py "--min") usage_min decode_min g2)
            (fun g3 =>
             bind (scan_step (py "--out") usage_out decode_out g3)
               check_positional))) tr.
Proof.
  unfold parse_arguments, bind.
  rewrite scan_model_step.
  destruct (scan_step _ _ decode_model _ tr) as [tr1 [g1|e]]; [|reflexivity].
  rewrite scan_max_step.
  destruct (scan_step _ _ decode_max _ tr1) as [tr2 [g2|e]]; [|reflexivity].
  rewrite scan_min_step.
  destruct (scan_step _ _ decode_min _ tr2) as [tr3 [g3|e]]; [|reflexivity].
  rewrite scan_out_step.
  reflexivity.
Qed.

End ScanFacts.

Section ExitFacts.
Import Cli.








End ExitFacts.

Section OrderFacts.
Import Cli.

Lemma is_flag_true (s : str) : is_flag s = true <-> In s FLAGS.
Proof.
  unfold is_flag, FLAGS; cbn [contains In].
  repeat rewrite orb_true_iff; repeat rewrite eqb_eq.
  intuition discriminate.
Qed.

Lemma flag_differs (f s : str) :
  In f FLAGS -> is_flag s = false -> eqb s f = false.
Proof.
  intros Hf Hs; apply eqb_neq; intros ->.
  apply is_flag_true in Hf; congruence.
Qed.

Lemma assoc_absent_drop (flag : str) (pairs : list (str * str)) :
  assoc flag pairs = None -> drop flag pairs = pairs.
Proof.
  induction pairs as [|[f v] pairs IH]; simpl; [reflexivity|].
  destruct (eqb f flag) eqn:E; simpl; [discriminate|].
  intros H; now rewrite IH.
Qed.

Lemma assoc_absent_keys (flag : str) (pairs : list (str * str)) :
  ~ In flag (map fst pairs) -> assoc flag pairs = None.
Proof.
  induction pairs as [|[f v] pairs IH]; simpl; [reflexivity|].
  intros H.
  destruct (eqb f flag) eqn:E; [apply eqb_eq in E; tauto|].
  apply IH; tauto.
Qed.

(** Looking a flag up in a command line laid out as
    [prog :: flag/value pairs ++ rest]. *)
Lemma value_of_pairs (flag : str) (pairs : list (str * str))
    (rest : list str) :
  In flag FLAGS ->
  Forall (fun p => is_flag (snd p) = false) pairs ->
  value_of flag (flat pairs ++ rest)
  = match assoc flag pairs with
    | Some v => Some (Some v)
    | None => value_of flag rest
    end.
Proof.
  intros Hf; induction 1 as [|[f v] pairs Hv _ IH]; simpl; [reflexivity|].
  destruct (eqb f flag); [reflexivity|].
  simpl in Hv; now rewrite (flag_differs flag v Hf Hv).
Qed.

Lemma without_pairs (flag : str) (pairs : list (str * str))
    (rest : list str) :
  In flag FLAGS ->
  NoDup (map fst pairs) ->
  Forall (fun p => is_flag (snd p) = false) pairs ->
  without flag (flat pairs ++ rest)
  = flat (drop flag pairs)
    ++ match assoc flag pairs with
       | Some _ => rest
       | None => without flag rest
       end.
Proof.
  intros Hf Hnd Hv; induction Hv as [|[f v] pairs Hv _ IH]; simpl;
    [reflexivity|].
  inversion Hnd as [|? ? Hnotin Hnd']; subst.
  destruct (eqb f flag) eqn:E; simpl.
  - apply eqb_eq in E; subst f.
    now rewrite (assoc_absent_drop _ _ (assoc_absent_keys _ _ Hnotin)).
  - simpl in Hv; rewrite (flag_differs flag v Hf Hv).
    now rewrite (IH Hnd').
Qed.

Lemma well_formed_values (todo : list str) (pairs : list (str * str)) :
  well_formed todo pairs ->
  Forall (fun p => is_flag (snd p) = false) pairs.
Proof.
  intros [_ H]; eapply Forall_impl; [|exact H]; simpl; tauto.
Qed.

Lemma well_formed_drop (flag : str) (todo : list str)
    (pairs : list (str * str)) :
  well_formed (flag :: todo) pairs -> well_formed todo (drop flag pairs).
Proof.
  intros [Hnd Hall]; split.
  - clear Hall; induction pairs as [|[f v] pairs IH]; simpl; [constructor|].
    inversion Hnd as [|? ? Hnotin Hnd']; subst.
    destruct (eqb f flag); simpl; [now apply IH|].
    constructor; [|now apply IH].
    intros Hin; apply Hnotin.
    apply in_map_iff in Hin as (p & Hp & Hin).
    apply filter_In in Hin as [Hin _].
    apply in_map_iff; eauto.
  - unfold drop; rewrite Forall_forall in *.
    intros p Hp; apply filter_In in Hp as [Hp Hne].
    destruct (Hall p Hp) as [[Hhead|Htodo] Hval]; split; auto.
    subst flag; rewrite eqb_refl in Hne; discriminate.
Qed.

Lemma well_formed_nil (pairs : list (str * str)) :
  well_formed [] pairs -> pairs = [].
Proof.
  intros [_ H]; destruct pairs as [|p pairs]; [reflexivity|].
  inversion H as [|? ? [[] _] _].
Qed.

Lemma assoc_Permutation (flag : str) (pairs pairs' : list (str * str)) :
  NoDup (map fst pairs) -> Permutation pairs pairs' ->
  assoc flag pairs = assoc flag pairs'.
Proof.
  intros Hnd Hp; induction Hp as [|[f v] l l' Hp IH|[f v] [f' v'] l|l l' l'' H1 IH1 H2 IH2].
  - reflexivity.
  - simpl; inversion Hnd; subst.
    destruct (eqb f flag); [reflexivity|]; now apply IH.
  - simpl.
    destruct (eqb f' flag) eqn:E', (eqb f flag) eqn:E; try reflexivity.
    apply eqb_eq in E, E'; subst.
    inversion Hnd as [|? ? Hnotin _]; simpl in Hnotin; tauto.
  - rewrite IH1; [apply IH2|]; auto.
    eapply Permutation_NoDup; [|exact Hnd].
    now apply Permutation_map.
Qed.

Lemma drop_Permutation (flag : str) (pairs pairs' : list (str * str)) :
  Permutation pairs pairs' ->
  Permutation (drop flag pairs) (drop flag pairs').
Proof.
  induction 1 as [|p l l' Hp IH|p q l|l l' l'' H1 IH1 H2 IH2]; simpl.
  - constructor.
  - destruct (negb (eqb (fst p) flag)); [now constructor | exact IH].
  - destruct (negb (eqb (fst p) flag)), (negb (eqb (fst q) flag));
      try apply Permutation_refl; apply perm_swap.
  - now transitivity (drop flag l').
Qed.

Lemma well_formed_Permutation (todo : list str)
    (pairs pairs' : list (str * str)) :
  well_formed todo pairs -> Permutation pairs pairs' ->
  well_formed todo pairs'.
Proof.
  intros [Hnd Hall] Hp; split.
  - eapply Permutation_NoDup; [|exact Hnd]; now apply Permutation_map.
  - eapply Permutation_Forall; eauto.
Qed.

Lemma decode_model_keeps_argv : keeps_argv decode_model.
Proof.
  intros v store; unfold decode_model.
  destruct (recognized (lower v)); [|discriminate].
  intros H; injection H as <-; reflexivity.
Qed.

Lemma decode_max_keeps_argv : keeps_argv decode_max.
Proof.
  intros v store; unfold decode_max.
  destruct (int v); [|discriminate].
  intros H; injection H as <-; reflexivity.
Qed.

Lemma decode_min_keeps_argv : keeps_argv decode_min.
Proof.
  intros v store; unfold decode_min.
  destruct (int v); [|discriminate].
  intros H; injection H as <-; reflexivity.
Qed.

Lemma decode_out_keeps_argv : keeps_argv decode_out.
Proof.
  intros v store; unfold decode_out.
  intros H; injection H as <-; reflexivity.
Qed.

(** One scan treats two such states alike. *)
Lemma scan_step_laid_out (flag usage : str)
    (decode : str -> (globals -> globals) + str)
    (prog : str) (todo : list str) (g g' : globals) (tr : trace) :
  In flag FLAGS -> is_flag prog = false -> keeps_argv decode ->
  laid_out prog (flag :: todo) g g' ->
  (exists tr1,
      scan_step flag usage decode g tr = (tr1, Raise (SystemExit 1))
      /\ scan_step flag usage decode g' tr = (tr1, Raise (SystemExit 1)))
  \/
  (exists g1 g1',
      scan_step flag usage decode g tr = (tr, Ok g1)
      /\ scan_step flag usage decode g' tr = (tr, Ok g1')
      /\ laid_out prog todo g1 g1').
Proof.
  intros Hflag Hprog Hkeep (pairs & pairs' & rest & Hwf & Hperm & Hg & ->).
  pose proof (well_formed_Permutation _ _ _ Hwf Hperm) as Hwf'.
  pose proof (well_formed_values _ _ Hwf) as Hval.
  pose proof (well_formed_values _ _ Hwf') as Hval'.
  unfold scan_step; cbn [argv set_argv]; rewrite Hg.
  cbn [value_of without].
  rewrite (flag_differs flag prog Hflag Hprog).
  rewrite (value_of_pairs flag pairs rest Hflag Hval).
  rewrite (value_of_pairs flag pairs' rest Hflag Hval').
  rewrite (without_pairs flag pairs rest Hflag (proj1 Hwf) Hval).
  rewrite (without_pairs flag pairs' rest Hflag (proj1 Hwf') Hval').
  rewrite <- (assoc_Permutation flag pairs pairs' (proj1 Hwf) Hperm).
  set (rest1 := match assoc flag pairs with
                | Some _ => rest
                | None => without flag rest
                end).
  destruct (match assoc flag pairs with
            | Some v => Some (Some v)
            | None => value_of flag rest
            end) as [[v|]|] eqn:Elook.
  - destruct (decode v) as [store|message] eqn:D; [right|left; eauto].
    do 2 eexists; split; [reflexivity|]; split; [reflexivity|].
    exists (drop flag pairs), (drop flag pairs'), rest1.
    split; [now apply well_formed_drop|].
    split; [now apply drop_Permutation|].
    split; [reflexivity|].
    now rewrite (Hkeep v store D).
  - left; eauto.
  - right; do 2 eexists; split; [reflexivity|]; split; [reflexivity|].
    destruct (assoc flag pairs) eqn:A; [discriminate|].
    exists pairs, pairs', rest.
    split; [|auto].
    rewrite <- (assoc_absent_drop flag pairs A).
    now apply well_formed_drop.
Qed.

(** Once every flag has been scanned the two states are one. *)
Lemma laid_out_done (prog : str) (g g' : globals) :
  laid_out prog [] g g' -> g' = g.
Proof.
  intros (pairs & pairs' & rest & Hwf & Hperm & Hg & ->).
  apply well_formed_nil in Hwf; subst pairs.
  apply Permutation_nil in Hperm; subst pairs'.
  destruct g; cbn in *; now subst.
Qed.

Lemma parse_arguments_laid_out (prog : str) (pairs pairs' : list (str * str))
    (rest : list str) (tr : trace) :
  is_flag prog = false -> well_formed FLAGS pairs ->
  Permutation pairs pairs' ->
  parse_arguments (prog :: flat pairs ++ rest) tr
  = parse_arguments (prog :: flat pairs' ++ rest) tr.
Proof.
  intros Hprog Hwf Hperm.
  assert (H0 : laid_out prog FLAGS (initial (prog :: flat pairs ++ rest))
                 (initial (prog :: flat pairs' ++ rest))).
  { exists pairs, pairs', rest.
    split; [exact Hwf|]; split; [exact Hperm|]; split; reflexivity. }
  do 2 rewrite parse_arguments_steps; unfold bind.
  destruct (scan_step_laid_out (py "--model") usage_model decode_model
              prog _ _ _ tr (or_introl eq_refl) Hprog
              decode_model_keeps_argv H0)
    as [(tr1 & -> & ->)|(g1 & g1' & -> & -> & H1)]; [reflexivity|].
  destruct (scan_step_laid_out (py "--max") usage_max decode_max
              prog _ _ _ tr (or_intror (or_introl eq_refl)) Hprog
              decode_max_keeps_argv H1)
    as [(tr2 & -> & ->)|(g2 & g2' & -> & -> & H2)]; [reflexivity|].
  destruct (scan_step_laid_out (py "--min") usage_min decode_min
              prog _ _ _ tr (or_intror (or_intror (or_introl eq_refl))) Hprog
              decode_min_keeps_argv H2)
    as [(tr3 & -> & ->)|(g3 & g3' & -> & -> & H3)]; [reflexivity|].
  destruct (scan_step_laid_out (py "--out") usage_out decode_out
              prog _ _ _ tr
              (or_intror (or_intror (or_intror (or_introl eq_refl)))) Hprog
              decode_out_keeps_argv H3)
    as [(tr4 & -> & ->)|(g4 & g4' & -> & -> & H4)]; [reflexivity|].
  now rewrite (laid_out_done _ _ _ H4).
Qed.

End OrderFacts.

(* ===================================================================== *)
(** * summarize_cli.py: the properties of the command line                 *)
(* ===================================================================== *)

Section CliClaims.
Import Cli.

(** C1, as amended.  Run on the eight tokens
    [--max 80 hello world this is a test], the argument phase leaves
    [max_length = 80], [min_length = 20] and the default model, and the
    input text is the six remaining tokens joined without a separator,
    [helloworldthisisatest].  The text is [hello world this is a test]
    when it is handed over as one token after [--max 80]. *)
Theorem scenario_max_80 (h : host) (tr : trace) :
  (parse_arguments
     (Demo.prog :: map py ["--max"; "80"; "hello"; "world"; "this"; "is";
                           "a"; "test"]%string) tr
   = (tr, Ok {| argv := Demo.prog :: map py ["hello"; "world"; "this"; "is";
                                             "a"; "test"]%string;
                model_name := default_model;
                max_length := 80;
                min_length := 20;
                output_file := None |})
   /\ bind (parse_arguments
              (Demo.prog :: map py ["--max"; "80"; "hello"; "world"; "this";
                                    "is"; "a"; "test"]%string))
           (resolve_input h) tr
      = (tr, Ok (py "helloworldthisisatest")))
  /\
  (parse_arguments
     [Demo.prog; py "--max"; py "80"; py "hello world this is a test"] tr
   = (tr, Ok {| argv := [Demo.prog; py "hello world this is a test"];
                model_name := default_model;
                max_length := 80;
                min_length := 20;
                output_file := None |})
   /\ bind (parse_arguments
              [Demo.prog; py "--max"; py "80";
               py "hello world this is a test"])
           (resolve_input h) tr
      = (tr, Ok (py "hello world this is a test"))).
Proof.
  repeat split; vm_compute; reflexivity.
Qed.

(** C1 as stated fails: with the words as separate tokens the text that
    reaches the summarizer has lost its spaces. *)
Lemma scenario_text_loses_spaces :
  bind (parse_arguments
          (Demo.prog :: map py ["--max"; "80"; "hello"; "world"; "this";
                                "is"; "a"; "test"]%string))
       (resolve_input Demo.read_only) []
  <> ([], Ok (py "hello world this is a test")).
Proof. vm_compute; discriminate. Qed.






(** C7, as amended.  When every flag occurs once, no value is itself the
    name of a flag and the script name is not one either, the order in
    which the flag/value pairs are listed before the text does not matter:
    the argument phase ends in the same state (same settings, same remaining
    tokens) or stops with the same message, and the input text is the
    same. *)
Theorem flag_order_is_irrelevant (prog : str)
    (pairs pairs' : list (str * str)) (rest : list str) (tr : trace) :
  is_flag prog = false ->
  well_formed FLAGS pairs ->
  Permutation pairs pairs' ->
  parse_arguments (prog :: flat pairs ++ rest) tr
  = parse_arguments (prog :: flat pairs' ++ rest) tr
  /\ forall h : host,
       bind (parse_arguments (prog :: flat pairs ++ rest))
            (resolve_input h) tr
       = bind (parse_arguments (prog :: flat pairs' ++ rest))
              (resolve_input h) tr.
Proof.
  intros Hprog Hwf Hperm.
  pose proof (parse_arguments_laid_out prog pairs pairs' rest tr
                Hprog Hwf Hperm) as E.
  split; [exact E|].
  intros h; unfold bind; now rewrite E.
Qed.

Lemma flag_order_is_irrelevant_witness :
  parse_arguments
    (Demo.prog :: flat [(py "--model", py "t5"); (py "--max", py "80")]
     ++ [py "text"]) []
  = parse_arguments
      (Demo.prog :: flat [(py "--max", py "80"); (py "--model", py "t5")]
       ++ [py "text"]) [].
Proof.
  apply (flag_order_is_irrelevant Demo.prog
           [(py "--model", py "t5"); (py "--max", py "80")]
           [(py "--max", py "80"); (py "--model", py "t5")]
           [py "text"] []).
  - reflexivity.
  - split.
    + constructor; [|constructor; [|constructor]].
      * intros [H|[]]; discriminate H.
      * intros [].
    + constructor; [|constructor; [|constructor]].
      * split; [left; reflexivity | reflexivity].
      * split; [right; left; reflexivity | reflexivity].
  - apply perm_swap.
Defined.

(** C7 as stated fails: a value that is the name of a flag is found by the
    scan for that flag when it comes first, and a flag given twice is taken
    from its first occurrence. *)
Lemma flag_order_can_matter :
  (Permutation [(py "--out", py "--max"); (py "--max", py "5")]
               [(py "--max", py "5"); (py "--out", py "--max")]
   /\ parse_arguments
        (Demo.prog :: flat [(py "--out", py "--max"); (py "--max", py "5")]
         ++ [py "text"]) []
      <> parse_arguments
           (Demo.prog :: flat [(py "--max", py "5"); (py "--out", py "--max")]
            ++ [py "text"]) [])
  /\
  (Permutation [(py "--max", py "5"); (py "--max", py "6")]
               [(py "--max", py "6"); (py "--max", py "5")]
   /\ parse_arguments
        (Demo.prog :: flat [(py "--max", py "5"); (py "--max", py "6")]
         ++ [py "text"]) []
      <> parse_arguments
           (Demo.prog :: flat [(py "--max", py "6"); (py "--max", py "5")]
            ++ [py "text"]) []).
Proof.
  split; (split; [apply perm_swap | vm_compute; discriminate]).
Qed.

(** C9.  When the summary has been computed and the file named by [--out]
    cannot be written, the script prints [Error writing to file: ...] and
    goes on: the summary heading and the summary are printed last, and the
    script ends normally. *)
Theorem write_failure_is_reported_inline (h : host) (args : list str)
    (tr tr1 tr2 tr3 tr4 : trace) (g : globals) (input_text : str)
    (ts : Summarizer.TextSummarizer) (summary f : str) (e : exn) :
  parse_arguments args tr = (tr1, Ok g) ->
  resolve_input h g tr1 = (tr2, Ok input_text) ->
  Summarizer.init h (model_name g) (max_length g) (min_length g) false tr2
    = (tr3, Ok ts) ->
  Summarizer.summarize h ts input_text tr3 = (tr4, Ok summary) ->
  output_file g = Some f -> f <> [] ->
  (forall tr', h_write h tr' f summary = Raise e) ->
  is_Exception e = true ->
  exists stats,
    length stats = 4%nat
    /\ script h args tr
       = (tr4 ++ map EvPrint stats
              ++ [EvWrite f summary;
                  EvPrint (py "Error writing to file: " ++ str_exn e);
                  EvPrint ([10%N] ++ py "=== SUMMARY ===");
                  EvPrint summary],
          Ok tt)
    /\ exit_status (snd (script h args tr)) = 0%Z.
Proof.
  intros Hparse Hinput Hinit Hsum Hout Hf Hwrite Hexn.
  destruct (compute_length_reduction_total input_text summary)
    as [[[orig_len sum_len] reduction] Estats].
  assert (Hrun : script h args tr
       = (tr4 ++ map EvPrint
                   [py "=== STATS ===";
                    py "Original length: " ++ str_of_int orig_len
                    ++ py " words";
                    py "Summary length:  " ++ str_of_int sum_len
                    ++ py " words";
                    py "Reduction:       "
                    ++ h_format_1f h (reduction * 100)%Q ++ py "%"]
              ++ [EvWrite f summary;
                  EvPrint (py "Error writing to file: " ++ str_exn e);
                  EvPrint ([10%N] ++ py "=== SUMMARY ===");
                  EvPrint summary],
          Ok tt)).
  { unfold script, bind at 1 2.
    rewrite Hparse, Hinput.
    unfold summarize_and_report, bind at 1 2 3.
    rewrite Hinit, Hsum, Estats.
    unfold write_output; rewrite Hout.
    destruct f as [|c f]; [now elim Hf|].
    unfold lift, print, try_except, bind, perform.
    rewrite Hwrite, Hexn.
    cbn [map].
    repeat rewrite <- app_assoc.
    reflexivity. }
  eexists; split; [|split; [exact Hrun|now rewrite Hrun]].
  reflexivity.
Qed.

Lemma write_failure_is_reported_inline_witness :
  exists stats,
    script Demo.read_only
      [Demo.prog; py "--out"; py "brief.txt"; py "some text to shorten"] []
    = ([EvLoad default_model;
        EvInfer default_model
          {| req_text := py "some text to shorten";
             req_max_length := 60; req_min_length := 20;
             req_do_sample := false; req_truncation := true |}]
       ++ map EvPrint stats
       ++ [EvWrite (py "brief.txt") (py "a short summary");
           EvPrint (py "Error writing to file: Permission denied");
           EvPrint ([10%N] ++ py "=== SUMMARY ===");
           EvPrint (py "a short summary")],
       Ok tt).
Proof.
  destruct (write_failure_is_reported_inline Demo.read_only
              [Demo.prog; py "--out"; py "brief.txt";
               py "some text to shorten"]
              [] [] [] [EvLoad default_model]
              [EvLoad default_model;
               EvInfer default_model
                 {| req_text := py "some text to shorten";
                    req_max_length := 60; req_min_length := 20;
                    req_do_sample := false; req_truncation := true |}]
              {| argv := [Demo.prog; py "some text to shorten"];
                 model_name := default_model;
                 max_length := 60; min_length := 20;
                 output_file := Some (py "brief.txt") |}
              (py "some text to shorten")
              {| Summarizer.model_name := default_model;
                 Summarizer.max_length := 60;
                 Summarizer.min_length := 20;
                 Summarizer.do_sample := false;
                 Summarizer._pipeline := default_model |}
              (py "a short summary") (py "brief.txt")
              (OSError (py "Permission denied")))
    as (stats & _ & Hrun & _);
    try (vm_compute; reflexivity).
  - discriminate.
  - exists stats; exact Hrun.
Defined.

End CliClaims.

(* ===================================================================== *)
(** * app_gradio.py: the file comes before the text box                    *)
(* ===================================================================== *)

Section GradioClaims.
Import Gradio.

(** Counts the pipeline calls in a log built by appending events. *)
Ltac count_calls :=
  repeat rewrite inferences_app; cbn [inferences app];
  repeat rewrite app_nil_r; try reflexivity.

Lemma resolve_text_reads_file (h : host) (text : option str)
    (p contents : str) (tr : trace) :
  p <> [] -> h_read h tr p = Ok contents ->
  resolve_text h text (Some p) tr = (tr ++ [EvRead p], Ok (inr contents)).
Proof.
  intros Hp Hread; destruct p as [|c p]; [now elim Hp|].
  unfold resolve_text, try_except, bind, perform, ret.
  now rewrite Hread.
Qed.

(** C8.  With a readable file and some text in the box, the callback reads
    the file and takes its whole contents as the text to work on; every
    request it sends to the pipeline carries those contents, and it sends
    exactly one when the contents are not blank and the model loads. *)
Theorem file_has_priority (h : host) (text p contents model_choice : str)
    (max_len min_len : Z) (creative_mode : bool) (tr : trace) :
  p <> [] -> text <> [] -> h_read h tr p = Ok contents ->
  resolve_text h (Some text) (Some p) tr
  = (tr ++ [EvRead p], Ok (inr contents))
  /\ exists calls,
       inferences
         (fst (summarize_interface h (Some text) (Some p) model_choice
                 max_len min_len creative_mode tr))
       = inferences tr ++ calls
       /\ Forall (fun r => req_text r = contents) calls
       /\ (strip contents <> [] ->
           h_load h (tr ++ [EvRead p]) (build_model_name model_choice)
           = Ok tt ->
           length calls = 1%nat).
Proof.
  intros Hp _ Hread.
  pose proof (resolve_text_reads_file h (Some text) p contents tr Hp Hread)
    as Hsource.
  split; [exact Hsource|].
  unfold summarize_interface, bind at 1; rewrite Hsource.
  destruct (strip contents) as [|c rest] eqn:Hstrip.
  - exists []; cbn [ret fst]; count_calls.
    split; [reflexivity|].
    split; [constructor|].
    intros H; now elim H.
  - assert (Hfull : strip contents <> []) by (rewrite Hstrip; discriminate).
    unfold Summarizer.init, bind at 1 2, perform at 1, ret at 1.
    destruct (h_load h (tr ++ [EvRead p]) (build_model_name model_choice))
      as [[]|e] eqn:Hload.
    + unfold bind at 1.
      rewrite (summarize_nonblank h _ contents _ Hfull).
      cbn [Summarizer._pipeline Summarizer.max_length
           Summarizer.min_length Summarizer.do_sample].
      set (r := {| req_text := contents;
                   req_max_length := max_len;
                   req_min_length := min_len;
                   req_do_sample := creative_mode;
                   req_truncation := true |}).
      exists [r].
      split; [|split; [repeat constructor | reflexivity]].
      match goal with
      | |- context [match ?x with Ok _ => getitem _ _ | Raise _ => _ end] =>
          destruct x as [[|s more]|e']
      end; cbn [getitem nth_error fst].
      * count_calls.
      * unfold bind, lift, ret.
        destruct (Summarizer.compute_length_reduction contents s)
          as [[[o m] q]|e']; cbn [fst]; count_calls.
      * count_calls.
    + exists []; cbn [fst]; count_calls.
      split; [reflexivity|].
      split; [constructor | discriminate].
Qed.

Lemma file_has_priority_witness :
  resolve_text Demo.read_only (Some (py "typed in the box"))
    (Some (py "notes.txt")) []
  = ([EvRead (py "notes.txt")], Ok (inr Demo.notes)).
Proof.
  apply (file_has_priority Demo.read_only (py "typed in the box")
           (py "notes.txt") Demo.notes (py "t5") 120 40 false []).
  - discriminate.
  - discriminate.
  - reflexivity.
Defined.

End GradioClaims.

(* ===================================================================== *)
(** * summarizer.py: further properties                                    *)
(* ===================================================================== *)

Section SummarizerMore.
Import Summarizer.

Lemma lstrip_decompose (s : str) :
  exists ws, s = ws ++ lstrip s /\ forallb isspace ws = true.
Proof.
  induction s as [|c s (ws & E & Hws)]; [now exists []|].
  simpl; destruct (isspace c) eqn:Hc.
  - exists (c :: ws); split; [simpl; now rewrite <- E|].
    simpl; now rewrite Hc.
  - now exists [].
Qed.

Lemma split_from_blank (w ws : str) :
  forallb isspace ws = true ->
  split_from w ws = match w with [] => [] | _ => [w] end.
Proof.
  revert w; induction ws as [|c ws IH]; intros w H; [reflexivity|].
  simpl in *; apply andb_true_iff in H as [Hc Hws]; rewrite Hc.
  destruct w; now rewrite IH.
Qed.

Lemma split_from_leading (ws s : str) :
  forallb isspace ws = true -> split_from [] (ws ++ s) = split_from [] s.
Proof.
  induction ws as [|c ws IH]; intros H; [reflexivity|].
  simpl in *; apply andb_true_iff in H as [Hc Hws]; rewrite Hc.
  now apply IH.
Qed.

Lemma split_from_trailing (w s ws : str) :
  forallb isspace ws = true -> split_from w (s ++ ws) = split_from w s.
Proof.
  intros H; revert w; induction s as [|c s IH]; intros w; simpl.
  - now apply split_from_blank.
  - destruct (isspace c); [destruct w|]; now rewrite IH.
Qed.

(** Trimming a text does not change its words. *)
Lemma split_strip (s : str) : split (strip s) = split s.
Proof.
  unfold split, strip, rstrip.
  destruct (lstrip_decompose s) as (ws & E & Hws).
  destruct (lstrip_decompose (rev (lstrip s))) as (ws' & E' & Hws').
  rewrite E at 2; rewrite (split_from_leading ws _ Hws).
  apply (f_equal (@rev char)) in E'.
  rewrite rev_involutive, rev_app_distr in E'.
  rewrite E' at 2.
  symmetry; apply split_from_trailing.
  now rewrite forallb_rev.
Qed.

Lemma compute_length_reduction_counts (original summary : str) :
  compute_length_reduction original summary
  = let N := Z.of_nat (length (split original)) in
    let M := Z.of_nat (length (split summary)) in
    if (N =? 0)%Z then Ok (0%Z, M, 0%Q)
    else Ok (N, M, (1 - inject_Z M / inject_Z N)%Q).
Proof.
  unfold compute_length_reduction, truediv.
  rewrite summary_word_count; cbv zeta.
  now destruct (Z.of_nat (length (split original)) =? 0)%Z.
Qed.

(** X1.  Whitespace around the original or around the summary has no
    influence on the statistics. *)
Theorem reduction_ignores_surrounding_whitespace (original summary : str) :
  compute_length_reduction (strip original) (strip summary)
  = compute_length_reduction original summary.
Proof.
  do 2 rewrite compute_length_reduction_counts.
  now do 2 rewrite split_strip.
Qed.

Lemma reduction_facts (M N : Z) :
  (0 <= M)%Z -> (0 < N)%Z ->
  (1 - inject_Z M / inject_Z N <= 1)%Q
  /\ ((1 - inject_Z M / inject_Z N == 1)%Q <-> M = 0%Z)
  /\ ((1 - inject_Z M / inject_Z N == 0)%Q <-> M = N)
  /\ ((0 <= 1 - inject_Z M / inject_Z N)%Q <-> (M <= N)%Z).
Proof.
  intros HM HN.
  destruct N as [|p|p]; try lia.
  unfold Qle, Qeq, Qminus, Qplus, Qopp, Qdiv, Qmult, Qinv, inject_Z.
  cbn [Qnum Qden].
  repeat split; intros; lia.
Qed.



(** X3.  Two texts with the same number of words, a text and itself for
    one, give a reduction of 0. *)
Theorem equal_word_counts_give_zero (original summary : str) :
  length (split original) = length (split summary) ->
  exists N r,
    compute_length_reduction original summary = Ok (N, N, r)
    /\ (r == 0)%Q.
Proof.
  intros Hsame.
  rewrite compute_length_reduction_counts; cbv zeta; rewrite <- Hsame.
  pose proof (Nat2Z.is_nonneg (length (split original))) as HN.
  destruct (Z.of_nat (length (split original)) =? 0)%Z eqn:E.
  - apply Z.eqb_eq in E; rewrite E.
    exists 0%Z, 0%Q; split; reflexivity.
  - apply Z.eqb_neq in E.
    do 2 eexists; split; [reflexivity|].
    apply reduction_facts; lia.
Qed.

Lemma equal_word_counts_give_zero_witness :
  exists N r,
    compute_length_reduction (py "to be or not") (py "to be or not")
    = Ok (N, N, r) /\ (r == 0)%Q.
Proof.
  apply (equal_word_counts_give_zero (py "to be or not") (py "to be or not")).
  reflexivity.
Defined.

(** X4.  A facade built by [TextSummarizer(...)] and then asked to
    summarize a text that is not blank calls the pipeline of the model it
    loaded, once, with the text as given, the lengths and the sampling flag
    of the constructor and truncation switched on; it returns the first
    summary of the answer and leaves the others aside. *)
Theorem facade_sends_its_settings (h : host) (model : str)
    (max_len min_len : Z) (sampling : bool) (text s : str)
    (others : list str) (tr : trace) :
  h_load h tr model = Ok tt ->
  strip text <> [] ->
  h_infer h (tr ++ [EvLoad model]) model
    {| req_text := text; req_max_length := max_len;
       req_min_length := min_len; req_do_sample := sampling;
       req_truncation := true |} = Ok (s :: others) ->
  bind (init h model max_len min_len sampling)
       (fun ts => summarize h ts text) tr
  = (tr ++ [EvLoad model;
            EvInfer model
              {| req_text := text; req_max_length := max_len;
                 req_min_length := min_len; req_do_sample := sampling;
                 req_truncation := true |}],
     Ok s).
Proof.
  intros Hload Hfull Hinfer.
  unfold init, bind at 1 2, perform at 1, ret at 1.
  rewrite Hload.
  rewrite (summarize_nonblank h _ text _ Hfull).
  cbn [_pipeline max_length min_length do_sample].
  rewrite Hinfer; cbn [getitem nth_error].
  now rewrite <- app_assoc.
Qed.

Lemma facade_sends_its_settings_witness :
  bind (init Demo.read_only (py "t5-small") 60 20 false)
       (fun ts => summarize Demo.read_only ts (py " shorten me ")) []
  = ([EvLoad (py "t5-small");
      EvInfer (py "t5-small")
        {| req_text := py " shorten me "; req_max_length := 60;
           req_min_length := 20; req_do_sample := false;
           req_truncation := true |}],
     Ok (py "a short summary")).
Proof.
  apply (facade_sends_its_settings Demo.read_only (py "t5-small") 60 20
           false (py " shorten me ") (py "a short summary") [] []).
  - reflexivity.
  - vm_compute; discriminate.
  - reflexivity.
Defined.

End SummarizerMore.

(* ===================================================================== *)
(** * summarize_cli.py: further properties                                 *)
(* ===================================================================== *)

Section CliMore.
Import Cli.

Lemma value_of_plain (flag : str) (l : list str) :
  In flag FLAGS -> Forall (fun t => is_flag t = false) l ->
  value_of flag l = None.
Proof.
  intros Hf; induction 1 as [|t l Ht _ IH]; simpl; [reflexivity|].
  now rewrite (flag_differs flag t Hf Ht).
Qed.

Lemma set_argv_same (g : globals) : set_argv (argv g) g = g.
Proof. now destruct g. Qed.

Lemma assoc_drop_other (f f' : str) (pairs : list (str * str)) :
  f <> f' -> assoc f (drop f' pairs) = assoc f pairs.
Proof.
  intros Hne; induction pairs as [|[k v] pairs IH]; simpl; [reflexivity|].
  destruct (eqb k f') eqn:E'; simpl.
  - apply eqb_eq in E'; subst k.
    destruct (eqb f' f) eqn:E; [apply eqb_eq in E; congruence | exact IH].
  - destruct (eqb k f); [reflexivity | exact IH].
Qed.

(** One scan of a command line that lists pairs and then plain tokens. *)
Lemma scan_step_pairs (flag usage : str)
    (decode : str -> (globals -> globals) + str)
    (prog : str) (todo : list str) (pairs : list (str * str))
    (rest : list str) (g : globals) (tr : trace) :
  In flag FLAGS -> is_flag prog = false ->
  well_formed (flag :: todo) pairs ->
  Forall (fun t => is_flag t = false) rest ->
  argv g = prog :: flat pairs ++ rest ->
  scan_step flag usage decode g tr
  = match assoc flag pairs with
    | None => (tr, Ok (set_argv (prog :: flat (drop flag pairs) ++ rest) g))
    | Some v =>
        match decode v with
        | inl store =>
            (tr, Ok (set_argv (prog :: flat (drop flag pairs) ++ rest)
                       (store g)))
        | inr message => (tr ++ [EvPrint message], Raise (SystemExit 1))
        end
    end.
Proof.
  intros Hflag Hprog Hwf Hrest Hg.
  pose proof (well_formed_values _ _ Hwf) as Hval.
  unfold scan_step; rewrite Hg; cbn [value_of without].
  rewrite (flag_differs flag prog Hflag Hprog).
  rewrite (value_of_pairs flag pairs rest Hflag Hval).
  rewrite (without_pairs flag pairs rest Hflag (proj1 Hwf) Hval).
  destruct (assoc flag pairs) as [v|] eqn:A; [reflexivity|].
  rewrite (value_of_plain flag rest Hflag Hrest).
  rewrite (assoc_absent_drop flag pairs A).
  now rewrite <- Hg, set_argv_same.
Qed.

Lemma parse_pairs_then_plain (prog : str) (pairs : list (str * str))
    (rest : list str) (tr : trace) :
  is_flag prog = false ->
  well_formed FLAGS pairs ->
  Forall (fun t => is_flag t = false) rest -> rest <> [] ->
  decodable pairs ->
  parse_arguments (prog :: flat pairs ++ rest) tr
  = (tr, Ok {| argv := prog :: rest;
               model_name := setting_model pairs;
               max_length := setting_number (py "--max") 60 pairs;
               min_length := setting_number (py "--min") 20 pairs;
               output_file := assoc (py "--out") pairs |}).
Proof.
  intros Hprog Hwf Hrest Hne (Dmodel & Dmax & Dmin).
  rewrite parse_arguments_steps; unfold bind.
  (* --model *)
  rewrite (scan_step_pairs (py "--model") usage_model decode_model prog
             _ pairs rest (initial _) tr (or_introl eq_refl) Hprog Hwf Hrest
             eq_refl).
  apply well_formed_drop in Hwf.
  set (p1 := drop (py "--model") pairs) in *.
  assert (A1 : forall f, f <> py "--model" -> assoc f p1 = assoc f pairs)
    by (intros f Hf; now apply assoc_drop_other).
  set (g1 := match assoc (py "--model") pairs with
             | Some v => set_model_name (Gradio.build_model_name v)
                           (initial (prog :: flat pairs ++ rest))
             | None => initial (prog :: flat pairs ++ rest)
             end).
  assert (E1 : match assoc (py "--model") pairs with
               | Some v =>
                   match decode_model v with
                   | inl store =>
                       (tr, Ok (set_argv (prog :: flat p1 ++ rest)
                                  (store (initial
                                            (prog :: flat pairs ++ rest)))))
                   | inr message =>
                       (tr ++ [EvPrint message], Raise (SystemExit 1))
                   end
               | None =>
                   (tr, Ok (set_argv (prog :: flat p1 ++ rest)
                              (initial (prog :: flat pairs ++ rest))))
               end = (tr, Ok (set_argv (prog :: flat p1 ++ rest) g1))).
  { unfold g1, decode_model.
    destruct (assoc (py "--model") pairs) as [v|] eqn:A; [|reflexivity].
    now rewrite (Dmodel v eq_refl). }
  rewrite E1; clear E1.
  (* --max *)
  rewrite (scan_step_pairs (py "--max") usage_max decode_max prog
             _ p1 rest (set_argv (prog :: flat p1 ++ rest) g1) tr
             (or_intror (or_introl eq_refl)) Hprog Hwf Hrest eq_refl).
  apply well_formed_drop in Hwf.
  set (p2 := drop (py "--max") p1) in *.
  assert (A2 : forall f, f <> py "--max" -> assoc f p2 = assoc f p1)
    by (intros f Hf; now apply assoc_drop_other).
  rewrite (A1 (py "--max")) by discriminate.
  set (g2 := set_max_length (setting_number (py "--max") 60 pairs)
               (set_argv (prog :: flat p1 ++ rest) g1)).
  assert (E2 : match assoc (py "--max") pairs with
               | Some v =>
                   match decode_max v with
                   | inl store =>
                       (tr, Ok (set_argv (prog :: flat p2 ++ rest)
                                  (store (set_argv (prog :: flat p1 ++ rest)
                                            g1))))
                   | inr message =>
                       (tr ++ [EvPrint message], Raise (SystemExit 1))
                   end
               | None =>
                   (tr, Ok (set_argv (prog :: flat p2 ++ rest)
                              (set_argv (prog :: flat p1 ++ rest) g1)))
               end = (tr, Ok (set_argv (prog :: flat p2 ++ rest) g2))).
  { unfold g2, setting_number, decode_max.
    destruct (assoc (py "--max") pairs) as [v|] eqn:A.
    - destruct (Dmax v eq_refl) as [n ->]; reflexivity.
    - unfold g1; now destruct (assoc (py "--model") pairs). }
  rewrite E2; clear E2.
  (* --min *)
  rewrite (scan_step_pairs (py "--min") usage_min decode_min prog
             _ p2 rest (set_argv (prog :: flat p2 ++ rest) g2) tr
             (or_intror (or_intror (or_introl eq_refl)))
             Hprog Hwf Hrest eq_refl).
  apply well_formed_drop in Hwf.
  set (p3 := drop (py "--min") p2) in *.
  assert (A3 : forall f, f <> py "--min" -> assoc f p3 = assoc f p2)
    by (intros f Hf; now apply assoc_drop_other).
  rewrite (A2 (py "--min")), (A1 (py "--min")) by discriminate.
  set (g3 := set_min_length (setting_number (py "--min") 20 pairs)
               (set_argv (prog :: flat p2 ++ rest) g2)).
  assert (E3 : match assoc (py "--min") pairs with
               | Some v =>
                   match decode_min v with
                   | inl store =>
                       (tr, Ok (set_argv (prog :: flat p3 ++ rest)
                                  (store (set_argv (prog :: flat p2 ++ rest)
                                            g2))))
                   | inr message =>
                       (tr ++ [EvPrint message], Raise (SystemExit 1))
                   end
               | None =>
                   (tr, Ok (set_argv (prog :: flat p3 ++ rest)
                              (set_argv (prog :: flat p2 ++ rest) g2)))
               end = (tr, Ok (set_argv (prog :: flat p3 ++ rest) g3))).
  { unfold g3, setting_number, decode_min.
    destruct (assoc (py "--min") pairs) as [v|] eqn:A.
    - destruct (Dmin v eq_refl) as [n ->]; reflexivity.
    - unfold g2, g1; now destruct (assoc (py "--model") pairs). }
  rewrite E3; clear E3.
  (* --out *)
  rewrite (scan_step_pairs (py "--out") usage_out decode_out prog
             _ p3 rest (set_argv (prog :: flat p3 ++ rest) g3) tr
             (or_intror (or_intror (or_intror (or_introl eq_refl))))
             Hprog Hwf Hrest eq_refl).
  apply well_formed_drop in Hwf.
  apply well_formed_nil in Hwf; rewrite Hwf.
  rewrite (A3 (py "--out")), (A2 (py "--out")), (A1 (py "--out"))
    by discriminate.
  unfold check_positional; cbn [flat app].
  destruct rest as [|t rest]; [now elim Hne|].
  unfold g3, g2, g1, setting_model, decode_out.
  destruct (assoc (py "--out") pairs), (assoc (py "--model") pairs);
    reflexivity.
Qed.

(** X5.  When the command line is the script name, flag/value pairs (each
    flag once, no value spelled like a flag, every value decodable) and then
    at least one plain token, the argument phase prints nothing and ends
    with the settings the pairs ask for, the defaults for the flags left
    out, and the plain tokens as input.  Nothing relates the two lengths:
    a minimum above the maximum is accepted as it is. *)
Theorem configuration_from_pairs (prog : str) (pairs : list (str * str))
    (rest : list str) (tr : trace) :
  is_flag prog = false ->
  well_formed FLAGS pairs ->
  Forall (fun t => is_flag t = false) rest -> rest <> [] ->
  decodable pairs ->
  parse_arguments (prog :: flat pairs ++ rest) tr
  = (tr, Ok {| argv := prog :: rest;
               model_name := setting_model pairs;
               max_length := setting_number (py "--max") 60 pairs;
               min_length := setting_number (py "--min") 20 pairs;
               output_file := assoc (py "--out") pairs |}).
Proof. apply parse_pairs_then_plain. Qed.

Lemma configuration_from_pairs_witness :
  parse_arguments
    (Demo.prog :: flat [(py "--min", py "90"); (py "--out", py "brief.txt");
                        (py "--max", py "30")]
     ++ [py "text to shorten"]) []
  = ([], Ok {| argv := [Demo.prog; py "text to shorten"];
               model_name := default_model;
               max_length := 30;
               min_length := 90;
               output_file := Some (py "brief.txt") |}).
Proof.
  apply (configuration_from_pairs Demo.prog
           [(py "--min", py "90"); (py "--out", py "brief.txt");
            (py "--max", py "30")]
           [py "text to shorten"] []).
  - reflexivity.
  - split.
    + constructor; [|constructor; [|constructor; [|constructor]]].
      * intros [H|[H|[]]]; discriminate H.
      * intros [H|[]]; discriminate H.
      * intros [].
    + constructor; [|constructor; [|constructor; [|constructor]]].
      * split; [right; right; left; reflexivity | reflexivity].
      * split; [right; right; right; left; reflexivity | reflexivity].
      * split; [right; left; reflexivity | reflexivity].
  - constructor; [reflexivity | constructor].
  - discriminate.
  - split; [|split]; intros v H; vm_compute in H.
    + discriminate H.
    + injection H as <-; exists 30%Z; reflexivity.
    + injection H as <-; exists 90%Z; reflexivity.
Defined.

(** Two command lines in which every scan finds the same thing. *)
Lemma scan_step_same_view (flag usage : str)
    (decode : str -> (globals -> globals) + str)
    (g : globals) (a' : list str) (tr : trace) :
  keeps_argv decode ->
  value_of flag (argv g) = value_of flag a' ->
  (exists tr1,
      scan_step flag usage decode g tr = (tr1, Raise (SystemExit 1))
      /\ scan_step flag usage decode (set_argv a' g) tr
         = (tr1, Raise (SystemExit 1)))
  \/
  (exists g1,
      scan_step flag usage decode g tr = (tr, Ok g1)
      /\ scan_step flag usage decode (set_argv a' g) tr
         = (tr, Ok (set_argv (without flag a') g1))
      /\ argv g1 = without flag (argv g)).
Proof.
  intros Hkeep Hview.
  unfold scan_step; cbn [argv set_argv]; rewrite <- Hview.
  destruct (value_of flag (argv g)) as [[v|]|] eqn:E.
  - destruct (decode v) as [store|message] eqn:D; [right|left; eauto].
    eexists; split; [reflexivity|]; split; [|reflexivity].
    now rewrite (Hkeep v store D).
  - left; eauto.
  - right; exists g; split; [reflexivity|]; split.
    + symmetry in Hview; now rewrite (without_absent flag a' Hview).
    + symmetry; now apply without_absent.
Qed.

Lemma parse_arguments_same_view (args args' : list str) (tr : trace) :
  value_of (py "--model") args = value_of (py "--model") args' ->
  value_of (py "--max") (after_model args)
  = value_of (py "--max") (after_model args') ->
  value_of (py "--min") (after_max args)
  = value_of (py "--min") (after_max args') ->
  value_of (py "--out") (after_min args)
  = value_of (py "--out") (after_min args') ->
  after_out args = after_out args' ->
  parse_arguments args tr = parse_arguments args' tr.
Proof.
  unfold after_out, after_min, after_max, after_model.
  intros V0 V1 V2 V3 Hleft.
  do 2 rewrite parse_arguments_steps; unfold bind.
  change (initial args') with (set_argv args' (initial args)).
  destruct (scan_step_same_view (py "--model") usage_model decode_model
              (initial args) args' tr decode_model_keeps_argv V0)
    as [(tr1 & -> & ->)|(g1 & -> & -> & A1)]; [reflexivity|].
  cbn [argv initial] in A1; rewrite <- A1 in V1.
  destruct (scan_step_same_view (py "--max") usage_max decode_max
              g1 _ tr decode_max_keeps_argv V1)
    as [(tr2 & -> & ->)|(g2 & -> & -> & A2)]; [reflexivity|].
  rewrite A1 in A2; rewrite <- A2 in V2.
  destruct (scan_step_same_view (py "--min") usage_min decode_min
              g2 _ tr decode_min_keeps_argv V2)
    as [(tr3 & -> & ->)|(g3 & -> & -> & A3)]; [reflexivity|].
  rewrite A2 in A3; rewrite <- A3 in V3.
  destruct (scan_step_same_view (py "--out") usage_out decode_out
              g3 _ tr decode_out_keeps_argv V3)
    as [(tr4 & -> & ->)|(g4 & -> & -> & A4)]; [reflexivity|].
  rewrite A3 in A4.
  now rewrite <- Hleft, <- A4, set_argv_same.
Qed.

Lemma value_of_skip (flag : str) (pre l : list str) :
  Forall (fun t => t <> flag) pre ->
  value_of flag (pre ++ l) = value_of flag l
  /\ without flag (pre ++ l) = pre ++ without flag l.
Proof.
  induction 1 as [|t pre Ht _ [IHv IHw]]; simpl; [split; reflexivity|].
  apply eqb_neq in Ht; rewrite Ht.
  split; [exact IHv | now rewrite IHw].
Qed.

Lemma plain_tokens_differ (flag : str) (l : list str) :
  In flag FLAGS -> Forall (fun t => is_flag t = false) l ->
  Forall (fun t => t <> flag) l.
Proof.
  intros Hf H; eapply Forall_impl; [|exact H].
  intros t Ht; apply eqb_neq; now apply flag_differs.
Qed.

(** How a command line with one pair among plain tokens looks to the scan
    for [flag']. *)
Lemma view_of_one_pair (flag' flag v prog : str) (pre post : list str) :
  In flag' FLAGS -> In flag FLAGS ->
  is_flag prog = false -> is_flag v = false ->
  Forall (fun t => is_flag t = false) pre ->
  Forall (fun t => is_flag t = false) post ->
  if eqb flag flag'
  then value_of flag' (prog :: pre ++ flag :: v :: post) = Some (Some v)
       /\ without flag' (prog :: pre ++ flag :: v :: post)
          = prog :: pre ++ post
  else value_of flag' (prog :: pre ++ flag :: v :: post) = None
       /\ without flag' (prog :: pre ++ flag :: v :: post)
          = prog :: pre ++ flag :: v :: post.
Proof.
  intros Hf' Hf Hprog Hv Hpre Hpost.
  assert (Hhead : Forall (fun t => t <> flag') (prog :: pre)).
  { constructor; [|now apply plain_tokens_differ].
    apply eqb_neq; now apply flag_differs. }
  destruct (value_of_skip flag' (prog :: pre) (flag :: v :: post) Hhead)
    as [Ev Ew].
  cbn [app] in Ev, Ew; rewrite Ev, Ew; cbn [value_of without].
  destruct (eqb flag flag'); [split; reflexivity|].
  rewrite (flag_differs flag' v Hf' Hv).
  rewrite (value_of_plain flag' post Hf' Hpost).
  split; [reflexivity|].
  now rewrite (without_absent flag' post (value_of_plain flag' post Hf' Hpost)).
Qed.

(** X6.  A flag and its value may stand anywhere among the plain tokens of
    the text, after them as well as before: the outcome of the argument
    phase is the same as with the pair in front. *)
Theorem pair_may_stand_anywhere (prog flag v : str) (pre post : list str)
    (tr : trace) :
  is_flag prog = false -> In flag FLAGS -> is_flag v = false ->
  Forall (fun t => is_flag t = false) pre ->
  Forall (fun t => is_flag t = false) post ->
  parse_arguments (prog :: pre ++ flag :: v :: post) tr
  = parse_arguments (prog :: flag :: v :: pre ++ post) tr.
Proof.
  intros Hprog Hflag Hv Hpre Hpost.
  assert (Hjoin : Forall (fun t => is_flag t = false) (pre ++ post))
    by (apply Forall_app; now split).
  set (A := prog :: pre ++ flag :: v :: post).
  set (A' := prog :: flag :: v :: pre ++ post).
  assert (View : forall flag', In flag' FLAGS ->
            (flag = flag' ->
             value_of flag' A = value_of flag' A'
             /\ without flag' A = without flag' A')
            /\ (flag <> flag' ->
                value_of flag' A = value_of flag' A'
                /\ without flag' A = A /\ without flag' A' = A')).
  { intros flag' Hf'.
    pose proof (view_of_one_pair flag' flag v prog pre post
                  Hf' Hflag Hprog Hv Hpre Hpost) as H1.
    pose proof (view_of_one_pair flag' flag v prog [] (pre ++ post)
                  Hf' Hflag Hprog Hv (Forall_nil _) Hjoin) as H2.
    cbn [app] in H2; fold A in H1; fold A' in H2.
    destruct (eqb flag flag') eqn:E;
      destruct H1 as [V1 W1], H2 as [V2 W2]; split; intros H.
    - split; congruence.
    - apply eqb_eq in E; contradiction.
    - apply eqb_neq in E; contradiction.
    - repeat split; congruence. }
  destruct (View (py "--model") (or_introl eq_refl)) as [Emodel Nmodel].
  destruct (View (py "--max") (or_intror (or_introl eq_refl)))
    as [Emax Nmax].
  destruct (View (py "--min") (or_intror (or_intror (or_introl eq_refl))))
    as [Emin Nmin].
  destruct (View (py "--out")
              (or_intror (or_intror (or_intror (or_introl eq_refl)))))
    as [Eout Nout].
  clearbody A A'; clear View.
  apply parse_arguments_same_view;
    unfold after_out, after_min, after_max, after_model;
    destruct Hflag as [<-|[<-|[<-|[<-|[]]]]];
    repeat match goal with
           | H : ?f = ?f -> _ |- _ => specialize (H eq_refl)
           | H : ?f <> ?f' -> _ |- _ =>
               first [ specialize (H ltac:(discriminate)) | clear H ]
           | H : ?f = ?f' -> _ |- _ => clear H
           | H : _ /\ _ |- _ => destruct H
           end;
    repeat match goal with
           | H : without _ _ = _ |- _ => rewrite H
           end;
    solve [ reflexivity | assumption ].
Qed.

Lemma pair_may_stand_anywhere_witness :
  parse_arguments [Demo.prog; py "long"; py "text"; py "--max"; py "80"] []
  = parse_arguments [Demo.prog; py "--max"; py "80"; py "long"; py "text"] [].
Proof.
  apply (pair_may_stand_anywhere Demo.prog (py "--max") (py "80")
           [py "long"; py "text"] [] []).
  - reflexivity.
  - right; left; reflexivity.
  - reflexivity.
  - repeat constructor.
  - constructor.
Defined.



(** X8.  A text that is blank is only refused after the model has been
    loaded: the script loads the model, then [summarize] raises its
    [ValueError], which nothing catches, so that the run ends with status 1
    and without any output. *)
Theorem blank_text_is_refused_after_loading (h : host) (args : list str)
    (tr tr1 tr2 : trace) (g : globals) (input_text : str) :
  parse_arguments args tr = (tr1, Ok g) ->
  resolve_input h g tr1 = (tr2, Ok input_text) ->
  forallb isspace input_text = true ->
  h_load h tr2 (model_name g) = Ok tt ->
  script h args tr
  = (tr2 ++ [EvLoad (model_name g)], Raise Summarizer.EmptyInput)
  /\ exit_status (snd (script h args tr)) = 1%Z.
Proof.
  intros Hparse Hinput Hblank Hload.
  assert (Hrun : script h args tr
                 = (tr2 ++ [EvLoad (model_name g)],
                    Raise Summarizer.EmptyInput)).
  { unfold script, bind at 1 2.
    rewrite Hparse, Hinput.
    unfold summarize_and_report, Summarizer.init.
    unfold bind at 1 2 3, perform at 1, ret at 1.
    rewrite Hload.
    now rewrite (summarize_blank h _ input_text _ Hblank). }
  split; [exact Hrun | now rewrite Hrun].
Qed.

Lemma blank_text_is_refused_after_loading_witness :
  script Demo.read_only [Demo.prog; py "   "] []
  = ([EvLoad default_model], Raise Summarizer.EmptyInput).
Proof.
  apply (blank_text_is_refused_after_loading Demo.read_only
           [Demo.prog; py "   "] [] [] []
           {| argv := [Demo.prog; py "   "];
              model_name := default_model;
              max_length := 60; min_length := 20;
              output_file := None |}
           (py "   ")); reflexivity.
Defined.

(** X9.  A single argument that ends in [.txt], in any letter case, is
    looked up as a file.  If it is one, its contents are the input text and
    a failure to read it is not caught; if it is not, the argument itself
    is taken as the text to summarize. *)
Theorem text_file_argument (h : host) (prog p : str) (tr : trace) :
  is_flag prog = false ->
  endswith (lower p) (py ".txt") = true ->
  (h_isfile h tr p = true ->
   bind (parse_arguments [prog; p]) (resolve_input h) tr
   = (tr ++ [EvPrint (py "Reading text from file: " ++ p); EvRead p],
      h_read h (tr ++ [EvPrint (py "Reading text from file: " ++ p)]) p))
  /\ (h_isfile h tr p = false ->
      bind (parse_arguments [prog; p]) (resolve_input h) tr = (tr, Ok p)).
Proof.
  intros Hprog Htxt.
  assert (Hp : is_flag p = false).
  { destruct (is_flag p) eqn:E; [|reflexivity].
    apply is_flag_true in E.
    destruct E as [<-|[<-|[<-|[<-|[]]]]]; discriminate Htxt. }
  assert (Hparse : parse_arguments [prog; p] tr
                   = (tr, Ok (initial [prog; p]))).
  { apply (parse_pairs_then_plain prog [] [p] tr Hprog).
    - split; constructor.
    - constructor; [exact Hp | constructor].
    - discriminate.
    - repeat split; intros v H; discriminate H. }
  assert (Hrun : bind (parse_arguments [prog; p]) (resolve_input h) tr
                 = resolve_input h (initial [prog; p]) tr)
    by (unfold bind; now rewrite Hparse).
  rewrite Hrun.
  unfold resolve_input; cbn [argv initial]; rewrite Htxt; cbn [andb].
  split; intros ->.
  - unfold bind, print, perform.
    now rewrite <- app_assoc.
  - unfold ret; cbn [skipn join]; reflexivity.
Qed.

Lemma text_file_argument_witness :
  bind (parse_arguments [Demo.prog; py "notes.txt"])
       (resolve_input Demo.read_only) []
  = ([EvPrint (py "Reading text from file: notes.txt");
      EvRead (py "notes.txt")], Ok Demo.notes)
  /\ bind (parse_arguments [Demo.prog; py "MISSING.TXT"])
          (resolve_input Demo.read_only) []
     = ([], Ok (py "MISSING.TXT")).
Proof.
  split.
  - apply (text_file_argument Demo.read_only Demo.prog (py "notes.txt") []);
      reflexivity.
  - apply (text_file_argument Demo.read_only Demo.prog (py "MISSING.TXT")
             []); reflexivity.
Defined.

End CliMore.

(* ===================================================================== *)
(** * What each entry point touches                                        *)
(* ===================================================================== *)

Section Footprint.

Variable allowed : event -> bool.

Lemma confined_ret (A : Type) (a : A) (tr : trace) :
  confined A allowed (ret a) tr.
Proof. exists []; split; [symmetry; apply app_nil_r | reflexivity]. Qed.

Lemma confined_raise (A : Type) (e : exn) (tr : trace) :
  confined A allowed (raise e) tr.
Proof. exists []; split; [symmetry; apply app_nil_r | reflexivity]. Qed.

Lemma confined_lift (A : Type) (r : result A) (tr : trace) :
  confined A allowed (lift r) tr.
Proof. exists []; split; [symmetry; apply app_nil_r | reflexivity]. Qed.

Lemma confined_query (A : Type) (f : trace -> result A) (tr : trace) :
  confined A allowed (fun tr => (tr, f tr)) tr.
Proof. exists []; split; [symmetry; apply app_nil_r | reflexivity]. Qed.

Lemma confined_perform (A : Type) (ev : event)
    (answer : trace -> result A) (tr : trace) :
  allowed ev = true -> confined A allowed (perform ev answer) tr.
Proof.
  intros H; exists [ev]; split; [reflexivity|]; simpl; now rewrite H.
Qed.

Lemma confined_print (line : str) (tr : trace) :
  allowed (EvPrint line) = true -> confined unit allowed (print line) tr.
Proof. apply confined_perform. Qed.

Lemma confined_bind (A B : Type) (m : io A) (k : A -> io B) (tr : trace) :
  confined A allowed m tr ->
  (forall tr' a, m tr = (tr', Ok a) -> confined B allowed (k a) tr') ->
  confined B allowed (bind m k) tr.
Proof.
  intros (evs & E & Hevs) Hk; unfold confined, bind.
  destruct (m tr) as [tr' [a|e]] eqn:Em; cbn [fst] in E; subst tr'.
  - destruct (Hk _ a eq_refl) as (evs' & E' & Hevs').
    exists (evs ++ evs'); split; [now rewrite E', app_assoc|].
    rewrite forallb_app; now rewrite Hevs, Hevs'.
  - exists evs; split; [reflexivity | exact Hevs].
Qed.

Lemma confined_try_except (A : Type) (body : io A) (handled : exn -> bool)
    (handler : exn -> io A) (tr : trace) :
  confined A allowed body tr ->
  (forall tr' e, body tr = (tr', Raise e) -> handled e = true ->
                 confined A allowed (handler e) tr') ->
  confined A allowed (try_except body handled handler) tr.
Proof.
  intros (evs & E & Hevs) Hh; unfold confined, try_except.
  destruct (body tr) as [tr' [a|e]] eqn:Em; cbn [fst] in E; subst tr'.
  - exists evs; split; [reflexivity | exact Hevs].
  - destruct (handled e) eqn:Hd.
    + destruct (Hh _ e eq_refl Hd) as (evs' & E' & Hevs').
      exists (evs ++ evs'); split; [now rewrite E', app_assoc|].
      rewrite forallb_app; now rewrite Hevs, Hevs'.
    + exists evs; split; [reflexivity | exact Hevs].
Qed.

End Footprint.

Section FootprintOfTheSources.

Lemma confined_summarize (allowed : event -> bool) (h : host)
    (ts : Summarizer.TextSummarizer) (text : str) (tr : trace) :
  (forall m r, allowed (EvInfer m r) = true) ->
  confined str allowed (Summarizer.summarize h ts text) tr.
Proof.
  intros Hinfer; unfold Summarizer.summarize.
  destruct (_ || _); [apply confined_raise|].
  apply confined_bind; [now apply confined_perform|].
  intros; apply confined_lift.
Qed.

Lemma confined_init (allowed : event -> bool) (h : host) (model : str)
    (max_len min_len : Z) (sampling : bool) (tr : trace) :
  (forall m, allowed (EvLoad m) = true) ->
  confined Summarizer.TextSummarizer allowed
    (Summarizer.init h model max_len min_len sampling) tr.
Proof.
  intros Hload; unfold Summarizer.init.
  apply confined_bind; [now apply confined_perform|].
  intros; apply confined_ret.
Qed.

Lemma confined_scan_step (flag usage : str)
    (decode : str -> (Cli.globals -> Cli.globals) + str) (g : Cli.globals)
    (tr : trace) :
  confined Cli.globals is_print (scan_step flag usage decode g) tr.
Proof.
  unfold confined, scan_step.
  destruct (value_of flag (Cli.argv g)) as [[v|]|].
  - destruct (decode v).
    + exists []; split; [symmetry; apply app_nil_r | reflexivity].
    + eexists; split; reflexivity.
  - eexists; split; reflexivity.
  - exists []; split; [symmetry; apply app_nil_r | reflexivity].
Qed.

Lemma confined_check_positional (g : Cli.globals) (tr : trace) :
  confined Cli.globals is_print (Cli.check_positional g) tr.
Proof.
  unfold Cli.check_positional.
  destruct (_ <? _)%nat; [|apply confined_ret].
  repeat (apply confined_bind; [now apply confined_print|]; intros).
  apply confined_raise.
Qed.

Lemma arguments_checked_only_print (args : list str) (tr : trace) :
  confined Cli.globals is_print (Cli.parse_arguments args) tr.
Proof.
  unfold confined; rewrite parse_arguments_steps.
  apply confined_bind; [apply confined_scan_step|]; intros.
  apply confined_bind; [apply confined_scan_step|]; intros.
  apply confined_bind; [apply confined_scan_step|]; intros.
  apply confined_bind; [apply confined_scan_step|]; intros.
  apply confined_check_positional.
Qed.

(** X10.  Whatever the command line, the argument phase does nothing but
    print: no file is read or written and no model is loaded before the
    arguments have been accepted, and when they are refused the script
    ends there. *)
Theorem arguments_are_checked_first (h : host) (args : list str)
    (tr : trace) :
  confined Cli.globals is_print (Cli.parse_arguments args) tr
  /\ (forall tr' e,
        Cli.parse_arguments args tr = (tr', Raise e) ->
        Cli.script h args tr = (tr', Raise e)).
Proof.
  split.
  - apply arguments_checked_only_print.
  - intros tr' e H; unfold Cli.script, bind; now rewrite H.
Qed.

Lemma arguments_are_checked_first_witness :
  Cli.script Demo.read_only [Demo.prog; py "--max"; py "many"; py "text"] []
  = ([EvPrint usage_max], Raise (SystemExit 1)).
Proof.
  apply (proj2 (arguments_are_checked_first Demo.read_only
                  [Demo.prog; py "--max"; py "many"; py "text"] [])).
  reflexivity.
Defined.

Lemma value_of_not_contained (flag : str) (l : list str) :
  contains flag l = false -> value_of flag l = None.
Proof.
  induction l as [|x l IH]; simpl; [reflexivity|].
  destruct (eqb x flag); [discriminate | exact IH].
Qed.

Lemma contains_without (flag flag' : str) (l : list str) :
  contains flag l = false -> contains flag (without flag' l) = false.
Proof.
  revert flag'; induction l as [|x l IH]; intros flag'; simpl;
    [reflexivity|].
  intros H; apply orb_false_iff in H as [Hx Hl].
  destruct (eqb x flag').
  - destruct l as [|y l]; [reflexivity|].
    simpl in Hl; apply orb_false_iff in Hl; tauto.
  - simpl; rewrite Hx; now apply IH.
Qed.

(** A successful scan, taken apart. *)
Lemma scan_step_ok (flag usage : str)
    (decode : str -> (Cli.globals -> Cli.globals) + str)
    (g g' : Cli.globals) (tr tr' : trace) :
  scan_step flag usage decode g tr = (tr', Ok g') ->
  tr' = tr
  /\ Cli.argv g' = without flag (Cli.argv g)
  /\ ((value_of flag (Cli.argv g) = None /\ g' = g)
      \/ exists v store,
           value_of flag (Cli.argv g) = Some (Some v)
           /\ decode v = inl store
           /\ g' = Cli.set_argv (without flag (Cli.argv g)) (store g)).
Proof.
  unfold scan_step.
  destruct (value_of flag (Cli.argv g)) as [[v|]|] eqn:E.
  - destruct (decode v) as [store|m] eqn:D; [|discriminate].
    intros H; injection H as <- <-.
    split; [reflexivity|]; split; [reflexivity|].
    right; eauto.
  - discriminate.
  - intros H; injection H as <- <-.
    split; [reflexivity|];
      split; [symmetry; now apply without_absent | now left].
Qed.

Lemma no_out_flag_no_output_file (args : list str) (tr tr' : trace)
    (g : Cli.globals) :
  contains (py "--out") args = false ->
  Cli.parse_arguments args tr = (tr', Ok g) ->
  Cli.output_file g = None.
Proof.
  intros Hout; rewrite parse_arguments_steps; unfold bind.
  destruct (scan_step _ _ decode_model _ tr) as [t1 [g1|e]] eqn:E1;
    [|discriminate].
  destruct (scan_step _ _ decode_max g1 t1) as [t2 [g2|e]] eqn:E2;
    [|discriminate].
  destruct (scan_step _ _ decode_min g2 t2) as [t3 [g3|e]] eqn:E3;
    [|discriminate].
  destruct (scan_step _ _ decode_out g3 t3) as [t4 [g4|e]] eqn:E4;
    [|discriminate].
  apply scan_step_ok in E1 as (_ & A1 & S1).
  apply scan_step_ok in E2 as (_ & A2 & S2).
  apply scan_step_ok in E3 as (_ & A3 & S3).
  apply scan_step_ok in E4 as (_ & A4 & S4).
  cbn [Cli.argv Cli.initial] in A1.
  assert (O1 : Cli.output_file g1 = None).
  { destruct S1 as [[_ ->]|(v & store & _ & D & ->)]; [reflexivity|].
    unfold decode_model in D; destruct (recognized (lower v));
      [injection D as <-; reflexivity | discriminate]. }
  assert (O2 : Cli.output_file g2 = None).
  { destruct S2 as [[_ ->]|(v & store & _ & D & ->)]; [exact O1|].
    unfold decode_max in D; destruct (int v);
      [injection D as <-; exact O1 | discriminate]. }
  assert (O3 : Cli.output_file g3 = None).
  { destruct S3 as [[_ ->]|(v & store & _ & D & ->)]; [exact O2|].
    unfold decode_min in D; destruct (int v);
      [injection D as <-; exact O2 | discriminate]. }
  assert (V : value_of (py "--out") (Cli.argv g3) = None).
  { apply value_of_not_contained; rewrite A3, A2, A1.
    now repeat apply contains_without. }
  destruct S4 as [[_ ->]|(v & store & V' & _)]; [|congruence].
  unfold Cli.check_positional.
  destruct (_ <? _)%nat.
  - unfold bind, print, perform, sys_exit, raise; discriminate.
  - intros H; injection H as _ <-; exact O3.
Qed.

Lemma confined_weaken (A : Type) (allowed allowed' : event -> bool)
    (m : io A) (tr : trace) :
  (forall ev, allowed ev = true -> allowed' ev = true) ->
  confined A allowed m tr -> confined A allowed' m tr.
Proof.
  intros Hsub (evs & E & Hevs); exists evs; split; [exact E|].
  rewrite forallb_forall in *; auto.
Qed.

(** X11.  Without the token [--out] on the command line the script writes
    no file, whatever else happens. *)
Theorem no_out_flag_no_file_written (h : host) (args : list str)
    (tr : trace) :
  contains (py "--out") args = false ->
  confined unit not_write (Cli.script h args) tr.
Proof.
  intros Hout; unfold Cli.script.
  apply confined_bind.
  { apply confined_weaken with is_print;
      [now intros [] | apply arguments_checked_only_print]. }
  intros tr1 g Hparse.
  pose proof (no_out_flag_no_output_file args tr tr1 g Hout Hparse) as Hnone.
  apply confined_bind.
  { unfold Cli.resolve_input, confined.
    destruct (Cli.argv g) as [|a0 [|a1 [|a2 l]]]; try apply confined_ret.
    destruct (_ && _); [|apply confined_ret].
    apply confined_bind; [now apply confined_print|]; intros.
    now apply confined_perform. }
  intros tr2 input_text _.
  unfold Cli.summarize_and_report.
  apply confined_bind; [now apply confined_init|]; intros tr3 ts _.
  apply confined_bind; [now apply confined_summarize|]; intros tr4 summary _.
  apply confined_bind; [apply confined_lift|]; intros tr5 [[o m] r] _.
  repeat (apply confined_bind; [now apply confined_print|]; intros).
  apply confined_bind.
  { unfold Cli.write_output; rewrite Hnone; apply confined_ret. }
  intros.
  apply confined_bind; [now apply confined_print|]; intros.
  now apply confined_print.
Qed.

Lemma no_out_flag_no_file_written_witness :
  confined unit not_write
    (Cli.script Demo.read_only [Demo.prog; py "some text to shorten"]) [].
Proof.
  apply (no_out_flag_no_file_written Demo.read_only
           [Demo.prog; py "some text to shorten"] []).
  reflexivity.
Defined.

End FootprintOfTheSources.

(* ===================================================================== *)
(** * app_gradio.py: further properties                                    *)
(* ===================================================================== *)

Section GradioMore.
Import Gradio.

Lemma loads_app (tr tr' : trace) : loads (tr ++ tr') = loads tr ++ loads tr'.
Proof.
  induction tr as [|ev tr IH]; simpl; [reflexivity|].
  destruct ev; simpl; now rewrite IH.
Qed.

(** X12.  With no file, or an empty path, and a text box that is empty
    or blank, the callback asks for input, hides the download button and
    does nothing else; the same happens when the file given holds nothing
    but whitespace, whatever the text box contains. *)
Theorem blank_input_is_asked_again (h : host) (text : option str)
    (p contents model_choice : str) (max_len min_len : Z)
    (creative_mode : bool) (tr : trace) :
  (match text with Some t => forallb isspace t = true | None => True end ->
   forall file_path, file_path = None \/ file_path = Some [] ->
   summarize_interface h text file_path model_choice max_len min_len
     creative_mode tr
   = (tr, Ok (py "Please enter some text or upload a .txt file.",
              [], Update false)))
  /\
  (p <> [] -> h_read h tr p = Ok contents ->
   forallb isspace contents = true ->
   summarize_interface h text (Some p) model_choice max_len min_len
     creative_mode tr
   = (tr ++ [EvRead p],
      Ok (py "Please enter some text or upload a .txt file.",
          [], Update false))).
Proof.
  split.
  - intros Hblank file_path Hnone.
    destruct text as [[|c t]|]; destruct Hnone as [-> | ->];
      unfold summarize_interface, resolve_text, bind, ret;
      try reflexivity;
      apply strip_blank in Hblank; now rewrite Hblank.
  - intros Hp Hread Hblank.
    unfold summarize_interface, bind.
    rewrite (resolve_text_reads_file h text p contents tr Hp Hread).
    apply strip_blank in Hblank; now rewrite Hblank.
Qed.

Lemma blank_input_is_asked_again_witness :
  summarize_interface Demo.read_only (Some (py "  ")) None (py "bart")
    120 40 false []
  = ([], Ok (py "Please enter some text or upload a .txt file.",
             [], Update false)).
Proof.
  apply (proj1 (blank_input_is_asked_again Demo.read_only (Some (py "  "))
                  [] [] (py "bart") 120 40 false [])).
  - reflexivity.
  - now left.
Defined.

(** X13.  When the file cannot be read the callback returns
    [Error reading file: ...] with the download button hidden; it does not
    fall back on the text box, and neither loads a model nor calls the
    pipeline. *)
Theorem unreadable_file_is_reported (h : host) (text : option str)
    (p model_choice : str) (max_len min_len : Z) (creative_mode : bool)
    (e : exn) (tr : trace) :
  p <> [] -> h_read h tr p = Raise e -> is_Exception e = true ->
  summarize_interface h text (Some p) model_choice max_len min_len
    creative_mode tr
  = (tr ++ [EvRead p],
     Ok (py "Error reading file: " ++ str_exn e, [], Update false)).
Proof.
  intros Hp Hread Hexn; destruct p as [|c p]; [now elim Hp|].
  unfold summarize_interface, resolve_text, try_except, bind, perform, ret.
  now rewrite Hread, Hexn.
Qed.

Lemma unreadable_file_is_reported_witness :
  summarize_interface Demo.read_only (Some (py "typed in the box"))
    (Some (py "gone.txt")) (py "bart") 120 40 false []
  = ([EvRead (py "gone.txt")],
     Ok (py "Error reading file: No such file or directory",
         [], Update false)).
Proof.
  apply (unreadable_file_is_reported Demo.read_only
           (Some (py "typed in the box")) (py "gone.txt") (py "bart")
           120 40 false (OSError (py "No such file or directory")) []).
  - discriminate.
  - reflexivity.
  - reflexivity.
Defined.



(** X15.  A failure to load the model, or a failure of the pipeline, is
    not caught by the callback: the exception leaves it as raised. *)
Theorem model_failures_escape_the_callback (h : host)
    (text file_path : option str) (model_choice : str)
    (max_len min_len : Z) (creative_mode : bool) (tr tr1 : trace)
    (text_content : str) (e : exn) :
  resolve_text h text file_path tr = (tr1, Ok (inr text_content)) ->
  strip text_content <> [] ->
  (h_load h tr1 (build_model_name model_choice) = Raise e ->
   summarize_interface h text file_path model_choice max_len min_len
     creative_mode tr
   = (tr1 ++ [EvLoad (build_model_name model_choice)], Raise e))
  /\
  (h_load h tr1 (build_model_name model_choice) = Ok tt ->
   h_infer h (tr1 ++ [EvLoad (build_model_name model_choice)])
     (build_model_name model_choice)
     {| req_text := text_content; req_max_length := max_len;
        req_min_length := min_len; req_do_sample := creative_mode;
        req_truncation := true |} = Raise e ->
   snd (summarize_interface h text file_path model_choice max_len min_len
          creative_mode tr) = Raise e).
Proof.
  intros Hsource Hfull.
  destruct (strip text_content) eqn:Hstrip; [now elim Hfull|].
  assert (Hfull' : strip text_content <> [])
    by (rewrite Hstrip; discriminate).
  split.
  - intros Hload.
    unfold summarize_interface, bind at 1; rewrite Hsource, Hstrip.
    unfold Summarizer.init, bind, perform.
    now rewrite Hload.
  - intros Hload Hinfer.
    unfold summarize_interface, bind at 1; rewrite Hsource, Hstrip.
    unfold Summarizer.init, bind at 1 2 3, perform at 1, ret at 1.
    rewrite Hload.
    rewrite (summarize_nonblank h _ text_content _ Hfull').
    cbn [Summarizer._pipeline Summarizer.max_length Summarizer.min_length
         Summarizer.do_sample].
    now rewrite Hinfer.
Qed.

Lemma model_failures_escape_the_callback_witness :
  summarize_interface DemoMore.offline (Some (py "text to shorten")) None
    (py "bart") 120 40 false []
  = ([EvLoad (py "facebook/bart-large-cnn")],
     Raise (OSError (py "model not available"))).
Proof.
  apply (proj1 (model_failures_escape_the_callback DemoMore.offline
                  (Some (py "text to shorten")) None (py "bart") 120 40
                  false [] [] (py "text to shorten")
                  (OSError (py "model not available"))
                  eq_refl ltac:(vm_compute; discriminate))).
  reflexivity.
Defined.

Lemma resolve_text_shape (h : host) (text file_path : option str)
    (tr : trace) :
  exists tr1 r,
    resolve_text h text file_path tr = (tr1, r)
    /\ (tr1 = tr \/ exists p, tr1 = tr ++ [EvRead p])
    /\ match r with
       | Ok (inl (_, stats, Update visible)) =>
           stats = [] /\ visible = false
       | _ => True
       end.
Proof.
  unfold resolve_text.
  destruct file_path as [[|c p]|].
  - do 2 eexists; split; [reflexivity|]; split; [now left | exact I].
  - unfold try_except, bind, perform, ret.
    destruct (h_read h tr (c :: p)) as [contents|e].
    + do 2 eexists; split; [reflexivity|]; split; [right; eauto | exact I].
    + destruct (is_Exception e);
        do 2 eexists; (split; [reflexivity|]);
        (split; [right; eauto|]); [split; reflexivity | exact I].
  - do 2 eexists; split; [reflexivity|]; split; [now left | exact I].
Qed.

(** X16.  The callback touches nothing but the file it is given, the
    model and the pipeline: it prints nothing and writes nothing.  The
    download button it returns is visible exactly when the pipeline has
    been called; whenever it is hidden the statistics are empty and no
    model has been loaded. *)
Theorem download_button_follows_the_pipeline (h : host)
    (text file_path : option str) (model_choice : str)
    (max_len min_len : Z) (creative_mode : bool) (tr : trace) :
  confined (str * str * update) is_model_or_read
    (summarize_interface h text file_path model_choice max_len min_len
       creative_mode) tr
  /\ forall tr' s stats visible,
       summarize_interface h text file_path model_choice max_len min_len
         creative_mode tr = (tr', Ok (s, stats, Update visible)) ->
       if visible
       then length (inferences tr') = S (length (inferences tr))
       else stats = [] /\ inferences tr' = inferences tr
            /\ loads tr' = loads tr.
Proof.
  split.
  - unfold summarize_interface.
    apply confined_bind.
    { unfold resolve_text.
      destruct file_path as [[|c p]|]; try apply confined_ret.
      apply confined_try_except.
      - apply confined_bind; [now apply confined_perform|].
        intros; apply confined_ret.
      - intros; apply confined_ret. }
    intros tr1 [early|text_content] _; [apply confined_ret|].
    destruct (strip text_content); [apply confined_ret|].
    apply confined_bind; [now apply confined_init|]; intros.
    apply confined_bind; [now apply confined_summarize|]; intros.
    apply confined_bind; [apply confined_lift|]; intros tr4 [[o m] r] _.
    apply confined_ret.
  - intros tr' s stats visible.
    unfold summarize_interface, bind at 1.
    destruct (resolve_text_shape h text file_path tr)
      as (tr1 & r & -> & Htr1 & Hr).
    assert (Hsame : inferences tr1 = inferences tr /\ loads tr1 = loads tr).
    { destruct Htr1 as [->|[p ->]]; [split; reflexivity|].
      rewrite inferences_app, loads_app; cbn [inferences loads].
      now do 2 rewrite app_nil_r. }
    destruct Hsame as [Hinf Hloads].
    destruct r as [[[[s0 stats0] [v0]]|text_content]|e]; [| |discriminate].
    + destruct Hr as [-> ->].
      intros H; injection H as <- <- <- <-; auto.
    + destruct (strip text_content) eqn:Hstrip.
      * intros H; injection H as <- <- <- <-; auto.
      * assert (Hfull : strip text_content <> [])
          by (rewrite Hstrip; discriminate).
        unfold Summarizer.init, bind at 1 2 3, perform at 1, ret at 1.
        destruct (h_load h tr1 (build_model_name model_choice)) as [[]|e];
          [|discriminate].
        rewrite (summarize_nonblank h _ text_content _ Hfull).
        match goal with
        | |- context [match ?x with Ok _ => getitem _ _ | Raise _ => _ end]
          => destruct x as [[|s1 more]|e]
        end; cbn [getitem nth_error]; try discriminate.
        unfold bind, lift, ret.
        destruct (Summarizer.compute_length_reduction text_content s1)
          as [[[o m] q]|e]; [|discriminate].
        intros H; injection H as <- <- <- <-.
        repeat rewrite inferences_app; cbn [inferences app].
        rewrite app_nil_r, length_app, Hinf; cbn [length]; lia.
Qed.

Lemma download_button_follows_the_pipeline_witness :
  length (inferences
            (fst (summarize_interface Demo.read_only
                    (Some (py "text to shorten")) None (py "bart")
                    120 40 false [])))
  = 1%nat.
Proof.
  destruct (summarize_interface Demo.read_only (Some (py "text to shorten"))
              None (py "bart") 120 40 false [])
    as [tr' [[[s stats] [visible]]|e]] eqn:E; [|discriminate E].
  assert (Hv : visible = true) by (vm_compute in E; congruence).
  subst visible.
  exact (proj2 (download_button_follows_the_pipeline Demo.read_only
                  (Some (py "text to shorten")) None (py "bart")
                  120 40 false [])
           tr' s stats true E).
Defined.

End GradioMore.

(* ===================================================================== *)
(** * app_gradio.py: the download button                                   *)
(* ===================================================================== *)

Section DownloadFacts.
Import GradioDownload.

(** X17.  Asked for a download while the summary is empty or blank, the
    callback creates no directory and no file and leaves the button as it
    is. *)
Theorem nothing_to_download (h : host) (t : temp_services)
    (summary_text : str) (tr : trace) :
  forallb isspace summary_text = true ->
  _write_summary_to_temp_file h t summary_text tr = (tr, Ok None)
  /\ generate_download_file h t summary_text tr = (tr, Ok NoChange).
Proof.
  intros Hblank; apply strip_blank in Hblank.
  assert (H : _write_summary_to_temp_file h t summary_text tr
              = (tr, Ok None)).
  { unfold _write_summary_to_temp_file; rewrite Hblank.
    now rewrite orb_true_r. }
  split; [exact H|].
  unfold generate_download_file, bind; now rewrite H.
Qed.

Lemma nothing_to_download_witness :
  generate_download_file Demo.read_only DemoMore.temp (py "  ") []
  = ([], Ok NoChange).
Proof.
  apply (nothing_to_download Demo.read_only DemoMore.temp (py "  ") []).
  reflexivity.
Defined.

(** X18.  Asked for a download of a summary that is not blank, the
    callback creates a fresh directory, writes the summary, untrimmed and
    with nothing added, to [summary.txt] in that directory, and hands that
    path to the button.  A failure to create the directory or to write the
    file is not caught; in the first case nothing is written. *)
Theorem summary_is_written_for_download (h : host) (t : temp_services)
    (summary_text : str) (tr : trace) :
  strip summary_text <> [] ->
  (forall temp_dir,
      t_mkdtemp t tr = Ok temp_dir ->
      generate_download_file h t summary_text tr
      = (tr ++ [EvWrite (t_join t temp_dir (py "summary.txt")) summary_text],
         match h_write h tr (t_join t temp_dir (py "summary.txt"))
                 summary_text with
         | Ok _ => Ok (FilePath (t_join t temp_dir (py "summary.txt")))
         | Raise e => Raise e
         end))
  /\ (forall e,
        t_mkdtemp t tr = Raise e ->
        generate_download_file h t summary_text tr = (tr, Raise e)).
Proof.
  intros Hfull.
  assert (Hgo : generate_download_file h t summary_text tr
     = match t_mkdtemp t tr with
       | Ok temp_dir =>
           (tr ++ [EvWrite (t_join t temp_dir (py "summary.txt"))
                     summary_text],
            match h_write h tr (t_join t temp_dir (py "summary.txt"))
                    summary_text with
            | Ok _ => Ok (FilePath (t_join t temp_dir (py "summary.txt")))
            | Raise e => Raise e
            end)
       | Raise e => (tr, Raise e)
       end).
  { unfold generate_download_file, _write_summary_to_temp_file.
    destruct summary_text as [|c s]; [now elim Hfull|].
    destruct (strip (c :: s)) eqn:E; [now elim Hfull|].
    cbn [orb]; unfold bind, perform, ret.
    destruct (t_mkdtemp t tr) as [temp_dir|e]; [|reflexivity].
    now destruct (h_write h tr _ (c :: s)) as [[]|e]. }
  split.
  - intros temp_dir E; now rewrite Hgo, E.
  - intros e E; now rewrite Hgo, E.
Qed.

Lemma summary_is_written_for_download_witness :
  generate_download_file DemoMore.writable DemoMore.temp
    (py " a short summary ") []
  = ([EvWrite (py "/tmp/tmpab12/summary.txt") (py " a short summary ")],
     Ok (FilePath (py "/tmp/tmpab12/summary.txt"))).
Proof.
  apply (proj1 (summary_is_written_for_download DemoMore.writable
                  DemoMore.temp (py " a short summary ") []
                  ltac:(vm_compute; discriminate))
           (py "/tmp/tmpab12")).
  reflexivity.
Defined.

End DownloadFacts.

(* ===================================================================== *)
(** * evaluate_rouge.py: further properties                                *)
(* ===================================================================== *)

Section EvaluateMore.
Import Summarizer EvaluateRouge EvaluateScoring.

Lemma summarize_ok (h : host) (ts : TextSummarizer) (text s : str)
    (tr tr' : trace) :
  summarize h ts text tr = (tr', Ok s) ->
  exists r, req_text r = text /\ tr' = tr ++ [EvInfer (_pipeline ts) r].
Proof.
  destruct (strip text) eqn:E.
  - assert (Hblank : forallb isspace text = true)
      by (now apply strip_blank).
    rewrite (summarize_blank h ts text tr Hblank); discriminate.
  - assert (Hfull : strip text <> []) by (rewrite E; discriminate).
    rewrite (summarize_nonblank h ts text tr Hfull).
    intros H; injection H as <- _.
    eexists; split; [|reflexivity]; reflexivity.
Qed.

Lemma evaluate_samples_ok (h : host) (ts : TextSummarizer) :
  forall (l : list sample) (predictions references : list str)
         (tr tr' : trace) (predictions' references' : list str),
    evaluate_samples h ts l predictions references tr
    = (tr', Ok (predictions', references')) ->
    references' = references ++ map reference l
    /\ length predictions' = (length predictions + length l)%nat
    /\ map req_text (inferences tr')
       = map req_text (inferences tr) ++ map text l.
Proof.
  induction l as [|s l IH]; intros predictions references tr tr' p' r'.
  - cbn [evaluate_samples]; unfold ret; intros H; injection H as <- <- <-.
    cbn [map length]; repeat rewrite app_nil_r.
    split; [reflexivity|]; split; [lia | reflexivity].
  - cbn [evaluate_samples]; unfold bind at 1.
    destruct (summarize h ts (text s) tr) as [tr1 [pred|e]] eqn:Es;
      [|discriminate].
    apply summarize_ok in Es as (r & Hr & ->).
    unfold bind, print, perform.
    intros H; apply IH in H as (Hrefs & Hlen & Hcalls).
    split; [|split].
    + rewrite Hrefs; now rewrite <- app_assoc.
    + rewrite Hlen, length_app; cbn [length]; lia.
    + rewrite Hcalls.
      repeat rewrite inferences_app; cbn [inferences app].
      repeat rewrite app_nil_r.
      rewrite map_app; cbn [map]; rewrite Hr.
      now rewrite <- app_assoc.
Qed.

Lemma samples_count (a : args) :
  Z.of_nat (length (samples a)) = Z.max 1 (Z.min (limit a) 3).
Proof.
  unfold samples, slice_to.
  change (length SAMPLE_DATA) with 3%nat.
  rewrite length_firstn.
  change (length SAMPLE_DATA) with 3%nat.
  destruct (Z.max 1 (Z.min (limit a) (Z.of_nat 3)) <? 0)%Z eqn:E;
    [apply Z.ltb_lt in E | apply Z.ltb_ge in E]; lia.
Qed.

(** X19.  Whenever the batch run gets through its loop, on any host, the
    two lists it has collected are parallel: there is one prediction per
    selected sample, the references are those of the selected samples in
    order, the pipeline has been called on their texts in that order, and
    their number is [max(1, min(limit, 3))]. *)
Theorem predictions_and_references_are_parallel (h : host) (a : args)
    (tr tr' : trace) (predictions references : list str) :
  main h a tr = (tr', Ok (predictions, references)) ->
  references = map reference (samples a)
  /\ length predictions = length references
  /\ Z.of_nat (length predictions) = Z.max 1 (Z.min (limit a) 3)
  /\ map req_text (inferences tr')
     = map req_text (inferences tr) ++ map text (samples a).
Proof.
  unfold main, init, print, bind, perform, ret.
  destruct (h_load h tr (build_model_name (model a))) as [[]|e];
    [|discriminate].
  destruct (h_rouge_load h _) as [[]|e]; [|discriminate].
  intros H; apply evaluate_samples_ok in H as (Hrefs & Hlen & Hcalls).
  cbn [app length] in Hrefs, Hlen.
  split; [exact Hrefs|].
  split; [rewrite Hlen, Hrefs; now rewrite length_map|].
  split; [rewrite Hlen; apply samples_count|].
  rewrite Hcalls.
  repeat rewrite inferences_app; cbn [inferences app].
  now repeat rewrite app_nil_r.
Qed.

Lemma predictions_and_references_are_parallel_witness :
  exists tr' predictions,
    main Demo.read_only Demo.limit_zero []
    = (tr', Ok (predictions, map reference (firstn 1 SAMPLE_DATA)))
    /\ length predictions = 1%nat.
Proof.
  destruct (main Demo.read_only Demo.limit_zero [])
    as [tr' [[predictions references]|e]] eqn:E;
    [|vm_compute in E; discriminate E].
  destruct (predictions_and_references_are_parallel Demo.read_only
              Demo.limit_zero [] tr' predictions references E)
    as (Hrefs & Hlen & _ & _).
  exists tr', predictions; split.
  - now rewrite Hrefs.
  - rewrite Hlen, Hrefs; reflexivity.
Defined.

Lemma replace_from_match (s : str) :
  PyText.replace_from [46%N; 32%N] [46%N; 10%N] 0 (46%N :: 32%N :: s)
  = 46%N :: 10%N :: PyText.replace_from [46%N; 32%N] [46%N; 10%N] 0 s.
Proof. reflexivity. Qed.

Lemma replace_from_other (c : char) (s : str) :
  (c =? 46)%N = false ->
  PyText.replace_from [46%N; 32%N] [46%N; 10%N] 0 (c :: s)
  = c :: PyText.replace_from [46%N; 32%N] [46%N; 10%N] 0 s.
Proof.
  intros H; cbn [PyText.replace_from PyText.startswith]; now rewrite H.
Qed.

Lemma replace_from_lonely (c : char) (s : str) :
  (c =? 32)%N = false ->
  PyText.replace_from [46%N; 32%N] [46%N; 10%N] 0 (46%N :: c :: s)
  = 46%N :: PyText.replace_from [46%N; 32%N] [46%N; 10%N] 0 (c :: s).
Proof.
  intros H.
  change (PyText.replace_from [46%N; 32%N] [46%N; 10%N] 0 (46%N :: c :: s))
    with (if (46 =? 46)%N && ((c =? 32)%N && true)
          then [46%N; 10%N]
               ++ PyText.replace_from [46%N; 32%N] [46%N; 10%N] 1 (c :: s)
          else 46%N
               :: PyText.replace_from [46%N; 32%N] [46%N; 10%N] 0 (c :: s)).
  now rewrite H.
Qed.

(** The call [s.replace(". ", ".\n")], one character at a time. *)
Lemma replace_period_space (n : nat) :
  forall s : str, (length s <= n)%nat ->
    PyText.replace s (py ". ") (py "." ++ [10%N])
    = break_after_period false s.
Proof.
  change (forall s : str, (length s <= n)%nat ->
            PyText.replace_from [46%N; 32%N] [46%N; 10%N] 0 s
            = break_after_period false s).
  induction n as [|n IH]; intros s Hn.
  - destruct s; [reflexivity | simpl in Hn; lia].
  - destruct s as [|c s]; [reflexivity|].
    destruct (c =? 46)%N eqn:Ec.
    + apply N.eqb_eq in Ec; subst c.
      destruct s as [|c' s]; [reflexivity|].
      destruct (c' =? 32)%N eqn:Ec'.
      * apply N.eqb_eq in Ec'; subst c'.
        rewrite replace_from_match.
        change (break_after_period false (46%N :: 32%N :: s))
          with (46%N :: 10%N :: break_after_period false s).
        f_equal; f_equal.
        apply IH; simpl in Hn |- *; lia.
      * etransitivity; [exact (replace_from_lonely c' s Ec')|].
        assert (Hs : (length (c' :: s) <= n)%nat) by (simpl in Hn |- *; lia).
        rewrite (IH (c' :: s) Hs).
        cbn [break_after_period andb]; change (46 =? 46)%N with true.
        cbn [andb]; now rewrite Ec'.
    + etransitivity; [exact (replace_from_other c s Ec)|].
      cbn [break_after_period andb]; rewrite Ec.
      f_equal; apply IH; simpl in Hn; lia.
Qed.

Lemma break_after_period_length (b : bool) (s : str) :
  length (break_after_period b s) = length s.
Proof.
  revert b; induction s as [|c s IH]; intros b; [reflexivity|].
  cbn [break_after_period length]; now rewrite IH.
Qed.

Lemma break_after_period_clean (s : str) (b : bool) :
  occurs [46%N; 32%N] (break_after_period b s) = false.
Proof.
  revert b; induction s as [|c s IH]; intros b; [reflexivity|].
  cbn [break_after_period occurs PyText.startswith].
  rewrite IH, orb_false_r.
  destruct s as [|c' s]; [now rewrite andb_false_r|].
  cbn [break_after_period].
  destruct (b && (c =? 32)%N) eqn:E1; [reflexivity|].
  destruct (c =? 46)%N eqn:E2; [|reflexivity].
  cbn [andb]. destruct (c' =? 32)%N eqn:E3; [reflexivity|].
  now rewrite E3.
Qed.

(** X20.  In both lists handed to the scorer every space that follows a
    full stop has become a line feed and nothing else has changed: the
    lists keep their length and order, every string keeps its length, and
    no full stop is followed by a space any more. *)
Theorem scorer_lists_break_after_periods (l : list str) :
  predictions_lsum l = map (break_after_period false) l
  /\ references_lsum l = predictions_lsum l
  /\ map (@length char) (predictions_lsum l) = map (@length char) l
  /\ Forall (fun q => occurs (py ". ") q = false) (predictions_lsum l).
Proof.
  assert (H : predictions_lsum l = map (break_after_period false) l).
  { unfold predictions_lsum; apply map_ext.
    intros s; now apply (replace_period_space (length s)). }
  split; [exact H|]; split; [reflexivity|]; split.
  - rewrite H, map_map; apply map_ext.
    intros s; apply break_after_period_length.
  - rewrite H; apply Forall_forall; intros q Hq.
    apply in_map_iff in Hq as (s & <- & _).
    apply break_after_period_clean.
Qed.

End EvaluateMore.
